(** * Random-search driver [dummy_minimize] of skopt/dummy_opt.py

    A shallow embedding of the driver.

    - Python values are an inductive type [pyval]; the dynamic type tests of
      the source ([isinstance], [np.isscalar], [is None]) are functions on it.
    - Exceptions are values of [exn]; a computation that can raise returns a
      [result].
    - The two observable effects of a run, calling the objective and calling
      the space sampler, are recorded in order in an event log, carried by a
      small writer/error monad [M].
    - The objective is a function from points to results: it may raise and
      may return any value; at the interface it is a single-argument pure
      function, and the order and number of its invocations are what the
      event log keeps.
    - The collaborators that are not part of dummy_opt.py (numpy's generator,
      the search space and its sampler, numpy on arrays that are not made of
      exact numbers) are the variables of [Section Driver]; [Module Toy]
      gives one concrete choice of them on which the driver can be run. *)

From Stdlib Require Import ZArith List String Ascii Bool Lia.
Import ListNotations.
Open Scope Z_scope.
Set Warnings "-register-all,-notation-for-abbreviation".

(** ** Python values *)

(** The values the driver can be handed or can get back from the objective.

    [PNum z] is a number that a numpy array holds exactly and that is not
    NaN: a Python float, or a Python int of magnitude at most 2^53.  The
    driver never computes with such numbers, it only has them compared
    (inside argmin), so each is named by an integer [z] in such a way that
    the order and equality of the names are those of the numbers.  [PNaN] is
    the float NaN, which compares false with everything.  [PBigInt z] is a
    Python int beyond 2^53 in magnitude, which [np.array] may round. *)
Inductive pyval : Type :=
| PNone
| PNum (z : Z)
| PStr (s : string)
| PList (l : list pyval)
| PTuple (l : list pyval)
| PObj (id : nat)
| PNaN
| PBigInt (z : Z).

(** Messages of the [ValueError]s raised in dummy_opt.py (and the one numpy
    raises for an empty argmin).  Every error of the driver is a Python
    [ValueError]; the spec's error kinds are told apart by the message:
    [x0_not_list], [y0_bad_type] and [length_mismatch] are its
    InvalidArgument, [func_not_scalar] and [y0_not_scalars] its
    InvalidObjectiveReturn. *)
Inductive message : Type :=
| x0_not_list        (* "Expected x0 to be a list, but got %s" *)
| func_not_scalar    (* "The function to be optimized should return a scalar" *)
| y0_bad_type        (* "Expected y0 to be an iterable or a scalar, got %s" *)
| length_mismatch    (* "x0 and y0 should have the same length" *)
| y0_not_scalars     (* "y0 elements should be scalars" *)
| argmin_empty.      (* "attempt to get argmin of an empty sequence" *)

Inductive exn : Type :=
| ValueError (m : message)
| IndexError
| TypeError
| Other (tag : string).

Inductive result (A : Type) : Type :=
| Ok (a : A)
| Err (e : exn).
Arguments Ok {A} a.
Arguments Err {A} e.

(** [isinstance(v, list)] *)
Definition isinstance_list (v : pyval) : bool :=
  match v with PList _ => true | _ => false end.

(** [isinstance(v, Iterable)] *)
Definition isinstance_Iterable (v : pyval) : bool :=
  match v with PStr _ | PList _ | PTuple _ => true | _ => false end.

(** [isinstance(v, numbers.Number)] *)
Definition isinstance_Number (v : pyval) : bool :=
  match v with PNum _ | PNaN | PBigInt _ => true | _ => false end.

(** [np.isscalar(v)]: numbers and strings are scalars, containers, [None]
    and arbitrary objects are not. *)
Definition np_isscalar (v : pyval) : bool :=
  match v with PNum _ | PStr _ | PNaN | PBigInt _ => true | _ => false end.

Fixpoint chars (s : string) : list pyval :=
  match s with
  | EmptyString => []
  | String c s' => PStr (String c EmptyString) :: chars s'
  end.

(** [list(v)] for an iterable [v]. *)
Definition py_list (v : pyval) : list pyval :=
  match v with
  | PList l | PTuple l => l
  | PStr s => chars s
  | _ => []
  end.

(** [l[i]] on a list, for an index [i >= 0]. *)
Definition getitem {A : Type} (l : list A) (i : nat) : result A :=
  match nth_error l i with
  | Some a => Ok a
  | None => Err IndexError
  end.

(** [v[0]] on an arbitrary value. *)
Definition getitem0 (v : pyval) : result pyval :=
  match v with
  | PList l | PTuple l => getitem l 0
  | PStr s => getitem (chars s) 0
  | PNone | PNum _ | PObj _ | PNaN | PBigInt _ => Err TypeError
  end.

(** [range(a, n)] for [a >= 0]; empty when [n <= a]. *)
Definition py_range (a : nat) (n : Z) : list nat :=
  seq a (Z.to_nat n - a).

(** [bool(l)] for a list. *)
Definition truthy {A : Type} (l : list A) : bool :=
  match l with [] => false | _ :: _ => true end.

(** ** numpy's argmin on numeric data *)

Fixpoint as_nums (l : list pyval) : option (list Z) :=
  match l with
  | [] => Some []
  | PNum z :: l' =>
      match as_nums l' with Some zs => Some (z :: zs) | None => None end
  | _ :: _ => None
  end.

(** Scan keeping the first strict minimum seen so far. *)
Fixpoint argmin_from (best : nat) (bv : Z) (i : nat) (l : list Z) : nat :=
  match l with
  | [] => best
  | v :: l' =>
      if v <? bv then argmin_from i v (S i) l'
      else argmin_from best bv (S i) l'
  end.

Definition argmin (l : list Z) : option nat :=
  match l with
  | [] => None
  | v :: l' => Some (argmin_from 0 v 1 l')
  end.

(** An entry that a float array holds as it is: an exact number or NaN. *)
Definition is_float (v : pyval) : bool :=
  match v with PNum _ | PNaN => true | _ => false end.

(** An exact number other than NaN. *)
Definition is_plain_number (v : pyval) : bool :=
  match v with PNum _ => true | _ => false end.

(** The index of the first NaN of a sequence. *)
Fixpoint first_nan (l : list pyval) : option nat :=
  match l with
  | [] => None
  | PNaN :: _ => Some 0%nat
  | _ :: l' => option_map S (first_nan l')
  end.

(** ** A concrete instance of the collaborators

    A small deterministic generator and box-shaped integer space, used to
    run the driver on examples. *)

Module Toy.

Definition rng : Type := Z.
Definition dims : Type := list (Z * Z).
Definition space : Type := list (Z * Z).

Definition RandomState (s : Z) : result rng :=
  if s <? 0 then Err (Other "seed must be non-negative") else Ok s.

Definition Space (d : dims) : result space :=
  if forallb (fun b => fst b <=? snd b) d then Ok d
  else Err (Other "lower bound above upper bound").

Definition draw (sp : space) (r : rng) (i : nat) : pyval :=
  PList (map (fun b => PNum (fst b + (r + 7 * Z.of_nat i) mod (snd b - fst b + 1))) sp).

Definition rvs (sp : space) (n : Z) (r : rng) : result (list pyval) :=
  if n <? 0 then Err (Other "negative dimensions are not allowed")
  else Ok (map (draw sp r) (seq 0 (Z.to_nat n))).

Definition array_other (y : list pyval) : result (list pyval) := Ok y.

Definition argmin_other (y : list pyval) : result nat := Err TypeError.

(** The objective of the spec's scenarios, [f(x) = (x[0] - 3)^2]. *)
Definition sq3 (x : pyval) : result pyval :=
  match x with
  | PList (PNum z :: _) | PTuple (PNum z :: _) => Ok (PNum ((z - 3) * (z - 3)))
  | _ => Err TypeError
  end.

(** An objective that returns a vector instead of a scalar. *)
Definition vec (x : pyval) : result pyval := Ok (PList [x; x]).

(** An objective that returns a number at the point [[1]] and a vector
    everywhere else. *)
Definition mixed (x : pyval) : result pyval :=
  match x with
  | PList (PNum 1 :: _) => Ok (PNum 4)
  | _ => Ok (PList [x])
  end.

(** [sq3], except that it returns NaN at the points whose first coordinate
    is [bad]. *)
Definition nan_at (bad : Z) (x : pyval) : result pyval :=
  match x with
  | PList (PNum z :: _) => if z =? bad then Ok PNaN else sq3 x
  | _ => sq3 x
  end.

(** [sq3], except that it raises at the points whose first coordinate is
    [bad]. *)
Definition brittle (bad : Z) (x : pyval) : result pyval :=
  match x with
  | PList (PNum z :: _) =>
      if z =? bad then Err (Other "objective failed") else sq3 x
  | _ => sq3 x
  end.

(** The inputs of the spec's scenarios: the space [[0, 10]], the initial
    points [[[1], [9]]] and their values [[4, 36]]. *)
Definition box : dims := [(0, 10)].
Definition two_points : pyval := PList [PList [PNum 1]; PList [PNum 9]].
Definition two_values : pyval := PList [PNum 4; PNum 36].

End Toy.

(** ** Effects: a writer/error monad over the event log *)

Section Driver.

(** The collaborators of the driver that live outside dummy_opt.py: the
    numpy generator, the search space of skopt/space.py and its sampler,
    and numpy's behaviour on arrays that are not made of exact numbers and
    NaNs. *)
Context {rng dims space : Type}.
Variable RandomState : Z -> result rng.
Variable Space : dims -> result space.
Variable rvs : space -> Z -> rng -> result (list pyval).
Variable array_other : list pyval -> result (list pyval).
Variable argmin_other : list pyval -> result nat.

Inductive event : Type :=
| EvCall (x : pyval)              (* func(x) *)
| EvRvs (n_samples : Z) (r : rng). (* space.rvs(n_samples, random_state=r) *)

Definition M (A : Type) : Type := (result A * list event)%type.

Definition ret {A} (a : A) : M A := (Ok a, []).
Definition raise {A} (e : exn) : M A := (Err e, []).
Definition lift {A} (r : result A) : M A := (r, []).

Definition bind {A B} (m : M A) (f : A -> M B) : M B :=
  match fst m with
  | Ok a => (fst (f a), snd m ++ snd (f a))
  | Err e => (Err e, snd m)
  end.

Notation "x <- m ;; k" := (bind m (fun x => k))
  (at level 100, m at next level, right associativity).

Fixpoint mapM {A B} (f : A -> M B) (l : list A) : M (list B) :=
  match l with
  | [] => ret []
  | a :: l' => b <- f a ;; bs <- mapM f l' ;; ret (b :: bs)
  end.

(** The random_state argument: [None], an integer seed, or a generator. *)
Inductive seed : Type :=
| SeedNone
| SeedInt (z : Z)
| SeedInstance (r : rng).

(** sklearn's [check_random_state]; [global] is numpy's process-wide
    generator, the ambient state a run starts in. *)
Definition check_random_state (global : rng) (s : seed) : result rng :=
  match s with
  | SeedNone => Ok global
  | SeedInt z => RandomState z
  | SeedInstance r => Ok r
  end.

(** [np.array(y)]: exact numbers, with or without NaNs among them, are
    stored as they are; what numpy makes of any other list (big ints that
    it rounds, strings, nested lists) is [array_other]. *)
Definition np_array (y : list pyval) : result (list pyval) :=
  match as_nums y with
  | Some _ => Ok y
  | None => if forallb is_float y then Ok y else array_other y
  end.

(** [np.argmin(y)]: on exact numbers the first index of the least one; on
    exact numbers with NaNs among them the index of the first NaN. *)
Definition np_argmin (y : list pyval) : result nat :=
  match as_nums y with
  | Some zs =>
      match argmin zs with
      | Some i => Ok i
      | None => Err (ValueError argmin_empty)
      end
  | None =>
      if forallb is_float y then
        match first_nan y with
        | Some i => Ok i
        | None => argmin_other y
        end
      else argmin_other y
  end.

Record OptimizeResult : Type := mkResult {
  res_x : pyval;
  res_fun : pyval;
  res_func_vals : list pyval;
  res_x_iters : list pyval;
  res_space : space;
  res_models : list pyval
}.

(** ** The driver *)

Section Run.

Variable func : pyval -> result pyval.

Definition call (x : pyval) : M pyval := (func x, [EvCall x]).

Definition call_rvs (sp : space) (n : Z) (r : rng) : M (list pyval) :=
  (rvs sp n r, [EvRvs n r]).

(** Lines 74-80: normalisation of [x0]. *)
Definition normalize_x0 (x0 : pyval) : result (list pyval) :=
  match
    match x0 with
    | PNone => Ok (PList [])
    | _ =>
        match getitem0 x0 with
        | Ok e => if negb (isinstance_list e) then Ok (PList [x0]) else Ok x0
        | Err e => Err e
        end
    end
  with
  | Ok (PList l) => Ok l
  | Ok _ => Err (ValueError x0_not_list)
  | Err e => Err e
  end.

(** Lines 90-96: a supplied [y0] as a list; [None] when it is neither an
    iterable nor a number. *)
Definition y0_as_list (y0 : pyval) : option (list pyval) :=
  if isinstance_Iterable y0 then Some (py_list y0)
  else if isinstance_Number y0 then Some [y0]
  else None.

(** Lines 82-103: the initial values and the budget left after them. *)
Definition initial_values (x0 : list pyval) (y0 : pyval) (n_calls : Z)
  : M (list pyval * Z) :=
  match y0, x0 with
  | PNone, x :: xs =>
      init_y <- call x ;;
      if negb (np_isscalar init_y) then raise (ValueError func_not_scalar)
      else
        ys <- mapM call xs ;;
        let y0 := init_y :: ys in
        ret (y0, n_calls - Z.of_nat (List.length y0))
  | _, _ :: _ =>
      y0 <- match y0_as_list y0 with
            | Some l => ret l
            | None => raise (ValueError y0_bad_type)
            end ;;
      if negb (List.length x0 =? List.length y0)%nat
      then raise (ValueError length_mismatch)
      else if negb (forallb np_isscalar y0)
      then raise (ValueError y0_not_scalars)
      else ret (y0, n_calls)
  | _, [] => ret ([], n_calls)
  end.

(** [func(X_left[i])] *)
Definition eval_at (X_left : list pyval) (i : nat) : M pyval :=
  x <- lift (getitem X_left i) ;; call x.

(** Lines 106-114: evaluation of the freshly sampled points. *)
Definition evaluate_left (X_left y0 : list pyval) (n_calls : Z)
  : M (list pyval) :=
  if truthy y0 then mapM (eval_at X_left) (py_range 0 n_calls)
  else
    init_y <- eval_at X_left 0 ;;
    if negb (np_isscalar init_y) then raise (ValueError func_not_scalar)
    else
      ys <- mapM (eval_at X_left) (py_range 1 n_calls) ;;
      ret (init_y :: ys).

(** Lines 116-129: merge and reduction. *)
Definition assemble (sp : space) (X y : list pyval) : result OptimizeResult :=
  match np_array y with
  | Err e => Err e
  | Ok y =>
      match np_argmin y with
      | Err e => Err e
      | Ok best =>
          match getitem X best with
          | Err e => Err e
          | Ok x =>
              match getitem y best with
              | Err e => Err e
              | Ok f => Ok (mkResult x f y X sp [])
              end
          end
      end
  end.

Definition dummy_minimize (global : rng) (dimensions : dims) (n_calls : Z)
    (x0 y0 : pyval) (random_state : seed) : M OptimizeResult :=
  r <- lift (check_random_state global random_state) ;;
  sp <- lift (Space dimensions) ;;
  x0 <- lift (normalize_x0 x0) ;;
  yn <- initial_values x0 y0 n_calls ;;
  let y0 := fst yn in
  let n_calls := snd yn in
  X_left <- call_rvs sp n_calls r ;;
  y_left <- evaluate_left X_left y0 n_calls ;;
  let X := x0 ++ X_left in
  let y := y0 ++ y_left in
  lift (assemble sp X y).

(** ** Observations on the event log *)

Definition is_call (e : event) : bool :=
  match e with EvCall _ => true | EvRvs _ _ => false end.

(** The points the objective was invoked on, in order. *)
Fixpoint called_points (log : list event) : list pyval :=
  match log with
  | [] => []
  | EvCall x :: log' => x :: called_points log'
  | EvRvs _ _ :: log' => called_points log'
  end.

(** The sampler invocations, in order. *)
Definition samplings (log : list event) : list event :=
  filter (fun e => negb (is_call e)) log.

(** [func] returns [v] at [x] without raising. *)
Definition returns (x v : pyval) : Prop := func x = Ok v.

(** The points of [X_left] at the indices [a, a+1, ..., a+n-1]. *)
Definition slice (X_left : list pyval) (a n : nat) : list pyval :=
  firstn n (skipn a X_left).

(** How many fresh points lines 106-114 evaluate: [range(0, n_calls)] after
    initial values, and [X_left[0]] followed by [range(1, n_calls)] without. *)
Definition fresh_count (y0 : list pyval) (n_calls : Z) : nat :=
  if truthy y0 then Z.to_nat n_calls else S (Z.to_nat n_calls - 1).

(** ** The monad on concrete computations *)

Lemma bind_ok {A B} (a : A) (l : list event) (f : A -> M B) :
  bind (Ok a, l) f = (fst (f a), l ++ snd (f a)).
Proof. reflexivity. Qed.

Lemma bind_err {A B} (e : exn) (l : list event) (f : A -> M B) :
  bind (Err e, l) f = (Err e, l).
Proof. reflexivity. Qed.

Lemma bind_lift_ok {A B} (a : A) (f : A -> M B) :
  bind (lift (Ok a)) f = f a.
Proof. unfold bind, lift; simpl. now destruct (f a). Qed.

Lemma bind_inv {A B} (m : M A) (f : A -> M B) (b : B) (log : list event) :
  bind m f = (Ok b, log) ->
  exists a l1 l2, m = (Ok a, l1) /\ f a = (Ok b, l2) /\ log = l1 ++ l2.
Proof.
  destruct m as [[a|e] l1]; unfold bind; simpl; intros H.
  - inversion H; subst. exists a, l1, (snd (f a)). repeat split.
    destruct (f a); simpl in *; congruence.
  - discriminate.
Qed.

Lemma lift_inv {A} (r : result A) (a : A) (log : list event) :
  lift r = (Ok a, log) -> r = Ok a /\ log = [].
Proof. unfold lift; intros H; inversion H; auto. Qed.

Lemma called_points_app (l1 l2 : list event) :
  called_points (l1 ++ l2) = called_points l1 ++ called_points l2.
Proof.
  induction l1 as [|[x|n r] l1 IH]; simpl; auto. now rewrite IH.
Qed.

Lemma called_points_calls (xs : list pyval) :
  called_points (map EvCall xs) = xs.
Proof. induction xs; simpl; congruence. Qed.

Lemma samplings_app (l1 l2 : list event) :
  samplings (l1 ++ l2) = samplings l1 ++ samplings l2.
Proof. apply filter_app. Qed.

Lemma samplings_calls (xs : list pyval) : samplings (map EvCall xs) = [].
Proof. induction xs; simpl; auto. Qed.

(** ** The evaluation loops *)

Lemma mapM_call_ok (xs ys : list pyval) :
  Forall2 returns xs ys -> mapM call xs = (Ok ys, map EvCall xs).
Proof.
  induction 1 as [|x v xs ys Hx _ IH]; simpl; auto.
  unfold call at 1. rewrite Hx, bind_ok, IH, bind_ok. simpl.
  now rewrite app_nil_r.
Qed.

Lemma mapM_call_inv (xs ys : list pyval) (log : list event) :
  mapM call xs = (Ok ys, log) ->
  Forall2 returns xs ys /\ log = map EvCall xs.
Proof.
  revert ys log; induction xs as [|x xs IH]; simpl; intros ys log H.
  - inversion H; subst; auto.
  - apply bind_inv in H as (v & l1 & l2 & Hc & H & ->).
    apply bind_inv in H as (vs & l3 & l4 & Hm & H & ->).
    inversion H; subst. inversion Hc; subst.
    apply IH in Hm as [HF ->]. split; [constructor; auto|].
    simpl. now rewrite app_nil_r.
Qed.

Lemma skipn_nth_error {A} (l : list A) (a : nat) (x : A) :
  nth_error l a = Some x -> skipn a l = x :: skipn (S a) l.
Proof.
  revert l; induction a as [|a IH]; intros [|y l]; simpl; try discriminate.
  - congruence.
  - apply IH.
Qed.

Lemma skipn_nth_error_none {A} (l : list A) (a : nat) :
  nth_error l a = None -> skipn a l = [].
Proof.
  intros H. apply nth_error_None in H. now apply skipn_all2.
Qed.

Lemma mapM_eval_at_ok (X_left : list pyval) (n a : nat) (ys : list pyval) :
  Forall2 returns (slice X_left a n) ys ->
  List.length (slice X_left a n) = n ->
  mapM (eval_at X_left) (seq a n) = (Ok ys, map EvCall (slice X_left a n)).
Proof.
  unfold slice. revert a ys; induction n as [|n IH]; intros a ys HF Hlen.
  - simpl in *. inversion HF; subst. reflexivity.
  - destruct (nth_error X_left a) as [x|] eqn:Hx.
    + rewrite (skipn_nth_error _ _ _ Hx), firstn_cons in *.
      inversion HF as [|? v ? vs Hv HF']; subst.
      cbn [List.length] in Hlen. injection Hlen as Hlen.
      cbn [seq mapM map].
      unfold eval_at at 1, getitem. rewrite Hx, bind_lift_ok.
      unfold call at 1. rewrite Hv, bind_ok.
      rewrite (IH (S a) vs HF' Hlen), bind_ok. simpl.
      now rewrite app_nil_r.
    + rewrite (skipn_nth_error_none _ _ Hx) in Hlen. simpl in Hlen.
      discriminate.
Qed.

Lemma mapM_eval_at_inv (X_left : list pyval) (n a : nat) (ys : list pyval)
    (log : list event) :
  mapM (eval_at X_left) (seq a n) = (Ok ys, log) ->
  Forall2 returns (slice X_left a n) ys /\
  List.length (slice X_left a n) = n /\
  log = map EvCall (slice X_left a n).
Proof.
  unfold slice. revert a ys log; induction n as [|n IH]; intros a ys log H.
  - simpl in *. inversion H; subst. auto.
  - simpl in H.
    apply bind_inv in H as (v & l1 & l2 & Hc & H & ->).
    apply bind_inv in H as (vs & l3 & l4 & Hm & H & ->).
    inversion H; subst; clear H.
    unfold eval_at, getitem in Hc.
    destruct (nth_error X_left a) as [x|] eqn:Hx; [|discriminate].
    rewrite bind_lift_ok in Hc. inversion Hc; subst; clear Hc.
    apply IH in Hm as (HF & Hlen & ->).
    rewrite (skipn_nth_error _ _ _ Hx), firstn_cons.
    cbn [List.length map]. repeat split.
    + constructor; auto.
    + now rewrite Hlen.
    + simpl. now rewrite app_nil_r.
Qed.

(** ** argmin returns the first index of the minimum *)

Lemma argmin_from_spec (l : list Z) : forall (best : nat) (bv : Z) (i : nat),
  (argmin_from best bv i l = best /\ forall z, In z l -> bv <= z) \/
  (exists (k : nat) (v : Z),
      nth_error l k = Some v /\ argmin_from best bv i l = (i + k)%nat /\
      v < bv /\ (forall z, In z l -> v <= z) /\
      (forall j z, (j < k)%nat -> nth_error l j = Some z -> v < z)).
Proof.
  induction l as [|v l IH]; intros best bv i; simpl.
  - left. split; [reflexivity | intros z []].
  - destruct (Z.ltb_spec v bv) as [Hlt|Hge].
    + destruct (IH i v (S i)) as [[Hr Hall]|(k & w & Hk & Hr & Hw & Hall & Hfirst)].
      * right. exists 0%nat, v. simpl. repeat split; auto.
        -- rewrite Hr. lia.
        -- intros z [->|Hz]; [lia | auto].
        -- intros j z Hj. lia.
      * right. exists (S k), w. simpl. repeat split; auto.
        -- rewrite Hr. lia.
        -- lia.
        -- intros z [->|Hz]; [lia | auto].
        -- intros [|j] z Hj Hz; simpl in Hz.
           ++ inversion Hz; subst. lia.
           ++ apply (Hfirst j); auto. lia.
    + destruct (IH best bv (S i)) as [[Hr Hall]|(k & w & Hk & Hr & Hw & Hall & Hfirst)].
      * left. split; auto. intros z [->|Hz]; [lia | auto].
      * right. exists (S k), w. simpl. repeat split; auto.
        -- rewrite Hr. lia.
        -- intros z [->|Hz]; [lia | auto].
        -- intros [|j] z Hj Hz; simpl in Hz.
           ++ inversion Hz; subst. lia.
           ++ apply (Hfirst j); auto. lia.
Qed.

Lemma argmin_spec (zs : list Z) (i : nat) :
  argmin zs = Some i ->
  exists m, nth_error zs i = Some m /\
            (forall z, In z zs -> m <= z) /\
            (forall j z, (j < i)%nat -> nth_error zs j = Some z -> m < z).
Proof.
  destruct zs as [|v l]; simpl; [discriminate|].
  intros H; inversion H; subst; clear H.
  destruct (argmin_from_spec l 0%nat v 1%nat)
    as [[Hr Hall]|(k & w & Hk & Hr & Hw & Hall & Hfirst)]; rewrite Hr.
  - exists v. simpl. repeat split; auto.
    + intros z [->|Hz]; [lia | auto].
    + intros j z Hj. lia.
  - exists w. simpl. repeat split; auto.
    + intros z [->|Hz]; [lia | auto].
    + intros [|j] z Hj Hz; simpl in Hz.
      * inversion Hz; subst. lia.
      * apply (Hfirst j); auto. lia.
Qed.

Lemma as_nums_map (y : list pyval) (zs : list Z) :
  as_nums y = Some zs -> y = map PNum zs.
Proof.
  revert zs; induction y as [|v y IH]; simpl; intros zs H.
  - inversion H; reflexivity.
  - destruct v; try discriminate.
    destruct (as_nums y) as [zs'|]; [|discriminate].
    inversion H; subst. simpl. now rewrite (IH zs').
Qed.

Lemma as_nums_of_map (zs : list Z) : as_nums (map PNum zs) = Some zs.
Proof. induction zs as [|z zs IH]; simpl; auto. now rewrite IH. Qed.

(** ** Normalisation of [x0] (lines 74-80) *)

Lemma normalize_x0_none : normalize_x0 PNone = Ok [].
Proof. reflexivity. Qed.

Lemma normalize_x0_list_of_lists (p : list pyval) (ps : list pyval) :
  normalize_x0 (PList (PList p :: ps)) = Ok (PList p :: ps).
Proof. reflexivity. Qed.

Lemma normalize_x0_flat (e : pyval) (es : list pyval) :
  isinstance_list e = false ->
  normalize_x0 (PList (e :: es)) = Ok [PList (e :: es)].
Proof. unfold normalize_x0; simpl; intros ->; reflexivity. Qed.

Lemma normalize_x0_nonempty (x0 : pyval) (pts : list pyval) :
  normalize_x0 x0 = Ok pts -> x0 <> PNone -> pts <> [].
Proof.
  unfold normalize_x0. destruct x0 as [|z|s|l|l|n| |z]; try congruence;
    simpl; try discriminate.
  - destruct (getitem (chars s) 0) as [e|e]; [|discriminate].
    destruct (isinstance_list e); simpl; [discriminate|].
    intros H _; inversion H; discriminate.
  - destruct l as [|e l]; simpl; [discriminate|].
    destruct (isinstance_list e); simpl; intros H _; inversion H; discriminate.
  - destruct l as [|e l]; simpl; [discriminate|].
    destruct (isinstance_list e); simpl; [discriminate|].
    intros H _; inversion H; discriminate.
Qed.

(** ** The initial values (lines 82-103) *)

Lemma initial_values_none (y0 : pyval) (n : Z) :
  initial_values [] y0 n = (Ok ([], n), []).
Proof. destruct y0; reflexivity. Qed.

Lemma initial_values_computed_ok (x0 vals : list pyval) (v : pyval) (n : Z) :
  Forall2 returns x0 vals -> hd_error vals = Some v -> np_isscalar v = true ->
  initial_values x0 PNone n
  = (Ok (vals, n - Z.of_nat (List.length x0)), map EvCall x0).
Proof.
  intros HF Hhd Hsc. destruct HF as [|x w xs ws Hx HF]; [discriminate|].
  simpl in Hhd. inversion Hhd; subst w. cbn [initial_values].
  unfold call at 1. rewrite Hx, bind_ok. cbn [fst snd]. rewrite Hsc.
  cbn [negb]. rewrite (mapM_call_ok _ _ HF), bind_ok. simpl.
  rewrite app_nil_r, (Forall2_length HF). reflexivity.
Qed.

Lemma initial_values_computed_nonscalar (x v : pyval) (xs : list pyval) (n : Z) :
  func x = Ok v -> np_isscalar v = false ->
  initial_values (x :: xs) PNone n
  = (Err (ValueError func_not_scalar), [EvCall x]).
Proof.
  intros Hx Hsc. cbn [initial_values]. unfold call. rewrite Hx, bind_ok.
  cbn [fst snd]. rewrite Hsc. reflexivity.
Qed.

Lemma initial_values_supplied (x0 : list pyval) (y0 : pyval) (n : Z) :
  x0 <> [] -> y0 <> PNone ->
  initial_values x0 y0 n =
  match y0_as_list y0 with
  | None => (Err (ValueError y0_bad_type), [])
  | Some vals =>
      if negb (List.length x0 =? List.length vals)%nat
      then (Err (ValueError length_mismatch), [])
      else if negb (forallb np_isscalar vals)
      then (Err (ValueError y0_not_scalars), [])
      else (Ok (vals, n), [])
  end.
Proof.
  intros Hx Hy. destruct x0 as [|x xs]; [congruence|].
  destruct y0; try congruence; cbn [initial_values];
    (destruct (y0_as_list _) as [vals|]; [|reflexivity]);
    rewrite bind_lift_ok || unfold ret at 1;
    try rewrite bind_ok;
    destruct (negb (_ =? _)%nat); try reflexivity;
    destruct (negb (forallb _ _)); reflexivity.
Qed.

Lemma initial_values_inv (x0 vals : list pyval) (y0 : pyval) (n n' : Z)
    (log : list event) :
  initial_values x0 y0 n = (Ok (vals, n'), log) ->
  (x0 = [] /\ vals = [] /\ n' = n /\ log = []) \/
  (x0 <> [] /\ y0 = PNone /\ Forall2 returns x0 vals /\
   n' = n - Z.of_nat (List.length x0) /\ log = map EvCall x0) \/
  (x0 <> [] /\ y0 <> PNone /\ y0_as_list y0 = Some vals /\
   List.length x0 = List.length vals /\ forallb np_isscalar vals = true /\
   n' = n /\ log = []).
Proof.
  intros H. destruct x0 as [|x xs].
  - rewrite initial_values_none in H. inversion H; subst. left; auto.
  - right. destruct (match y0 with PNone => true | _ => false end) eqn:Hy.
    + destruct y0; try discriminate. left. cbn [initial_values] in H.
      apply bind_inv in H as (v & l1 & l2 & Hc & H & ->).
      destruct (negb (np_isscalar v)); [discriminate|].
      apply bind_inv in H as (vs & l3 & l4 & Hm & H & ->).
      inversion H; subst; clear H. inversion Hc; subst; clear Hc.
      apply mapM_call_inv in Hm as [HF ->].
      repeat split; try discriminate.
      * constructor; auto.
      * simpl. rewrite (Forall2_length HF). reflexivity.
      * simpl. now rewrite app_nil_r.
    + right. assert (Hne : y0 <> PNone) by (intros ->; discriminate).
      rewrite initial_values_supplied in H by (auto; discriminate).
      destruct (y0_as_list y0) as [vs|]; [|discriminate].
      destruct (List.length (x :: xs) =? List.length vs)%nat eqn:Hlen;
        [|discriminate].
      destruct (forallb np_isscalar vs) eqn:Hsc; [|discriminate].
      simpl in H. inversion H; subst.
      apply Nat.eqb_eq in Hlen. repeat split; auto; discriminate.
Qed.

(** ** Evaluation of the fresh points (lines 106-114) *)

Lemma slice_head (X_left : list pyval) (x : pyval) (k : nat) :
  nth_error X_left 0 = Some x ->
  slice X_left 0 (S k) = x :: slice X_left 1 k.
Proof.
  intros Hx. unfold slice. now rewrite (skipn_nth_error _ _ _ Hx), firstn_cons.
Qed.

Lemma evaluate_left_inv (X_left y0 ys : list pyval) (n : Z) (log : list event) :
  evaluate_left X_left y0 n = (Ok ys, log) ->
  Forall2 returns (slice X_left 0 (fresh_count y0 n)) ys /\
  List.length (slice X_left 0 (fresh_count y0 n)) = fresh_count y0 n /\
  log = map EvCall (slice X_left 0 (fresh_count y0 n)) /\
  (y0 = [] -> exists v, hd_error ys = Some v /\ np_isscalar v = true).
Proof.
  unfold evaluate_left, fresh_count, py_range. intros H.
  destruct y0 as [|w ws]; cbn [truthy] in *.
  - apply bind_inv in H as (v & l1 & l2 & Hc & H & ->).
    destruct (np_isscalar v) eqn:Hsc; [|discriminate]. cbn [negb] in H.
    apply bind_inv in H as (vs & l3 & l4 & Hm & H & ->).
    inversion H; subst; clear H.
    unfold eval_at, getitem in Hc.
    destruct (nth_error X_left 0) as [x|] eqn:Hx; [|discriminate].
    rewrite bind_lift_ok in Hc. inversion Hc; subst; clear Hc.
    apply mapM_eval_at_inv in Hm as (HF & Hlen & ->).
    rewrite (slice_head _ _ _ Hx). cbn [List.length map].
    repeat split.
    + constructor; auto.
    + now rewrite Hlen.
    + simpl. now rewrite app_nil_r.
    + intros _. exists v. auto.
  - rewrite Nat.sub_0_r in H.
    apply mapM_eval_at_inv in H as (HF & Hlen & ->).
    repeat split; auto. discriminate.
Qed.

Lemma evaluate_left_ok (X_left y0 ys : list pyval) (n : Z) :
  Forall2 returns (slice X_left 0 (fresh_count y0 n)) ys ->
  List.length (slice X_left 0 (fresh_count y0 n)) = fresh_count y0 n ->
  (y0 = [] -> exists v, hd_error ys = Some v /\ np_isscalar v = true) ->
  evaluate_left X_left y0 n
  = (Ok ys, map EvCall (slice X_left 0 (fresh_count y0 n))).
Proof.
  unfold evaluate_left, fresh_count, py_range. intros HF Hlen Hsc.
  destruct y0 as [|w ws]; cbn [truthy] in *.
  - destruct (Hsc eq_refl) as (v & Hhd & Hv).
    destruct (nth_error X_left 0) as [x|] eqn:Hx.
    + rewrite (slice_head _ _ _ Hx) in *.
      inversion HF as [|? v' ? vs Hx' HF']; subst.
      simpl in Hhd. inversion Hhd; subst v'.
      cbn [List.length] in Hlen. injection Hlen as Hlen.
      unfold eval_at at 1, getitem. rewrite Hx, bind_lift_ok.
      unfold call at 1. rewrite Hx', bind_ok. cbn [fst snd]. rewrite Hv.
      cbn [negb]. rewrite (mapM_eval_at_ok _ _ _ _ HF' Hlen), bind_ok.
      simpl. now rewrite app_nil_r.
    + unfold slice in Hlen. rewrite (skipn_nth_error_none _ _ Hx) in Hlen.
      discriminate.
  - rewrite Nat.sub_0_r. now apply mapM_eval_at_ok.
Qed.

Lemma evaluate_left_nonscalar (X_left : list pyval) (x v : pyval) (n : Z) :
  nth_error X_left 0 = Some x -> func x = Ok v -> np_isscalar v = false ->
  evaluate_left X_left [] n = (Err (ValueError func_not_scalar), [EvCall x]).
Proof.
  intros Hx Hv Hsc. unfold evaluate_left. cbn [truthy].
  unfold eval_at, getitem. rewrite Hx, bind_lift_ok. unfold call.
  rewrite Hv, bind_ok. cbn [fst snd]. rewrite Hsc. reflexivity.
Qed.

(** ** Merge and reduction (lines 116-129) *)

Lemma assemble_inv (sp : space) (X y : list pyval) (res : OptimizeResult) :
  assemble sp X y = Ok res ->
  np_array y = Ok (res_func_vals res) /\
  res_x_iters res = X /\ res_space res = sp /\ res_models res = [] /\
  exists best,
    np_argmin (res_func_vals res) = Ok best /\
    nth_error X best = Some (res_x res) /\
    nth_error (res_func_vals res) best = Some (res_fun res).
Proof.
  unfold assemble. destruct (np_array y) as [a|]; [|discriminate].
  destruct (np_argmin a) as [best|] eqn:Hb; [|discriminate].
  unfold getitem.
  destruct (nth_error X best) as [x|] eqn:Hx; [|discriminate].
  destruct (nth_error a best) as [f|] eqn:Hf; [|discriminate].
  intros H; inversion H; subst; simpl. repeat split; auto.
  exists best. auto.
Qed.


(** ** The run as a composition of its stages *)

Lemma dummy_minimize_stages (global : rng) (d : dims) (N : Z) (x0 y0 : pyval)
    (rs : seed) (r : rng) (sp : space) (pts vals : list pyval) (n : Z)
    (log0 : list event) :
  check_random_state global rs = Ok r ->
  Space d = Ok sp ->
  normalize_x0 x0 = Ok pts ->
  initial_values pts y0 N = (Ok (vals, n), log0) ->
  dummy_minimize global d N x0 y0 rs =
  match rvs sp n r with
  | Err e => (Err e, log0 ++ [EvRvs n r])
  | Ok X_left =>
      match fst (evaluate_left X_left vals n) with
      | Err e => (Err e, log0 ++ EvRvs n r :: snd (evaluate_left X_left vals n))
      | Ok ys => (assemble sp (pts ++ X_left) (vals ++ ys),
                  log0 ++ EvRvs n r :: snd (evaluate_left X_left vals n))
      end
  end.
Proof.
  intros Hr Hsp Hx Hi. unfold dummy_minimize.
  rewrite Hr, bind_lift_ok, Hsp, bind_lift_ok, Hx, bind_lift_ok, Hi, bind_ok.
  cbn [fst snd]. unfold call_rvs.
  destruct (rvs sp n r) as [X_left|e]; [|reflexivity].
  rewrite bind_ok.
  destruct (evaluate_left X_left vals n) as [[ys|e] log1]; simpl.
  - now rewrite app_nil_r.
  - reflexivity.
Qed.

Lemma dummy_minimize_init_err (global : rng) (d : dims) (N : Z) (x0 y0 : pyval)
    (rs : seed) (r : rng) (sp : space) (pts : list pyval) (e : exn)
    (log0 : list event) :
  check_random_state global rs = Ok r ->
  Space d = Ok sp ->
  normalize_x0 x0 = Ok pts ->
  initial_values pts y0 N = (Err e, log0) ->
  dummy_minimize global d N x0 y0 rs = (Err e, log0).
Proof.
  intros Hr Hsp Hx Hi. unfold dummy_minimize.
  now rewrite Hr, bind_lift_ok, Hsp, bind_lift_ok, Hx, bind_lift_ok, Hi, bind_err.
Qed.

Lemma dummy_minimize_inv (global : rng) (d : dims) (N : Z) (x0 y0 : pyval)
    (rs : seed) (res : OptimizeResult) (log : list event) :
  dummy_minimize global d N x0 y0 rs = (Ok res, log) ->
  exists r sp pts vals n log0 X_left ys log1,
    check_random_state global rs = Ok r /\
    Space d = Ok sp /\
    normalize_x0 x0 = Ok pts /\
    initial_values pts y0 N = (Ok (vals, n), log0) /\
    rvs sp n r = Ok X_left /\
    evaluate_left X_left vals n = (Ok ys, log1) /\
    assemble sp (pts ++ X_left) (vals ++ ys) = Ok res /\
    log = log0 ++ EvRvs n r :: log1.
Proof.
  unfold dummy_minimize. intros H.
  apply bind_inv in H as (r & l1 & l2 & Hr & H & ->).
  apply lift_inv in Hr as [Hr ->].
  apply bind_inv in H as (sp & l1 & l3 & Hsp & H & ->).
  apply lift_inv in Hsp as [Hsp ->].
  apply bind_inv in H as (pts & l1 & l4 & Hx & H & ->).
  apply lift_inv in Hx as [Hx ->].
  apply bind_inv in H as ([vals n] & log0 & l5 & Hi & H & ->).
  apply bind_inv in H as (X_left & l1 & l6 & Hs & H & ->).
  unfold call_rvs in Hs. inversion Hs; subst; clear Hs.
  apply bind_inv in H as (ys & log1 & l7 & He & H & ->).
  apply lift_inv in H as [Ha ->].
  exists r, sp, pts, vals, n, log0, X_left, ys, log1.
  cbn [fst snd] in *. repeat split; auto.
  simpl. now rewrite app_nil_r.
Qed.

(** Splits a completed run into its stages, naming what each produced. *)
Ltac run_stages H :=
  apply dummy_minimize_inv in H
    as (r & sp & pts & vals & n & log0 & X_left & ys & log1 &
        Hr & Hsp & Hx & Hi & Hs & He & Ha & ->).

(** ** Runs that complete *)

Lemma fresh_count_budget (vals : list pyval) (n : Z) :
  vals <> [] \/ 0 < n -> fresh_count vals n = Z.to_nat n.
Proof.
  unfold fresh_count. destruct vals; cbn [truthy]; intros [H|H];
    try congruence; try reflexivity. lia.
Qed.

Lemma slice_all (X_left : list pyval) :
  slice X_left 0 (List.length X_left) = X_left.
Proof. unfold slice. simpl. apply firstn_all. Qed.


(** ** Properties of the driver *)


(** C2 (as the code has it). In a completed run where initial points are
    supplied together with initial values, the objective is never invoked
    on the initial points, and it is invoked on the first [N] sampled
    points, in sampling order: exactly [N] invocations, the budget not being
    reduced by the number of supplied values. *)
Theorem dummy_minimize_supplied_calls (global : rng) (d : dims) (N : Z)
    (x0 y0 : pyval) (rs : seed) (res : OptimizeResult) (log : list event) :
  dummy_minimize global d N x0 y0 rs = (Ok res, log) ->
  x0 <> PNone -> y0 <> PNone ->
  exists r sp pts X_left,
    check_random_state global rs = Ok r /\ Space d = Ok sp /\
    normalize_x0 x0 = Ok pts /\
    rvs sp N r = Ok X_left /\
    log = EvRvs N r :: map EvCall (slice X_left 0 (Z.to_nat N)) /\
    called_points log = slice X_left 0 (Z.to_nat N) /\
    List.length (called_points log) = Z.to_nat N.
Proof.
  intros Hrun Hx0 Hy0.
  run_stages Hrun.
  pose proof (normalize_x0_nonempty _ _ Hx Hx0) as Hp.
  apply initial_values_inv in Hi
    as [(? & _)|[(_ & ? & _)|(_ & _ & Hl & Hk & _ & -> & ->)]];
    try congruence.
  apply evaluate_left_inv in He as (HF & Hlen & -> & _).
  assert (Hc : fresh_count vals N = Z.to_nat N).
  { apply fresh_count_budget. left. destruct vals; [|discriminate].
    destruct pts; [congruence|discriminate]. }
  rewrite Hc in *.
  exists r, sp, pts, X_left. simpl.
  rewrite called_points_calls. repeat split; auto.
Qed.

Lemma first_nan_spec (y : list pyval) (i : nat) :
  first_nan y = Some i ->
  nth_error y i = Some PNaN /\
  (forall j, (j < i)%nat -> nth_error y j <> Some PNaN) /\
  as_nums y = None.
Proof.
  revert i; induction y as [|v y IH]; intros i; [discriminate|].
  destruct (match v with PNaN => true | _ => false end) eqn:Hv.
  - destruct v; try discriminate. simpl. intros H; inversion H; subst.
    repeat split. intros j Hj. lia.
  - assert (Hstep : first_nan (v :: y) = option_map S (first_nan y))
      by (destruct v; try discriminate; reflexivity).
    rewrite Hstep. destruct (first_nan y) as [k|]; [|discriminate].
    simpl. intros H; inversion H; subst.
    destruct (IH k eq_refl) as (Hk & Hfirst & Hnone).
    repeat split; auto.
    + intros [|j] Hj; simpl.
      * intros Hc; inversion Hc; subst. discriminate.
      * apply Hfirst. lia.
    + simpl. rewrite Hnone. destruct v; reflexivity.
Qed.

(** C3 (as the code has it). In a completed run whose returned value
    sequence holds only exact numbers, none of them NaN, the reported best
    value is the minimum of the returned value sequence, and the reported
    best point is the element of the returned point sequence at the lowest
    index whose value attains that minimum.  When the sequence holds exact
    numbers and NaNs, the reported best value is NaN and the reported best
    point is the element of the point sequence at the index of the first
    NaN. *)
Theorem dummy_minimize_best (global : rng) (d : dims) (N : Z)
    (x0 y0 : pyval) (rs : seed) (res : OptimizeResult) (log : list event) :
  dummy_minimize global d N x0 y0 rs = (Ok res, log) ->
  (forall zs, as_nums (res_func_vals res) = Some zs ->
     exists (best : nat) (m : Z),
       res_fun res = PNum m /\
       nth_error zs best = Some m /\
       (forall z, In z zs -> m <= z) /\
       (forall j z, (j < best)%nat -> nth_error zs j = Some z -> m < z) /\
       nth_error (res_x_iters res) best = Some (res_x res)) /\
  (forall i, forallb is_float (res_func_vals res) = true ->
     first_nan (res_func_vals res) = Some i ->
     res_fun res = PNaN /\
     nth_error (res_func_vals res) i = Some PNaN /\
     (forall j, (j < i)%nat -> nth_error (res_func_vals res) j <> Some PNaN) /\
     nth_error (res_x_iters res) i = Some (res_x res)).
Proof.
  intros Hrun.
  apply dummy_minimize_inv in Hrun
    as (r & sp & pts & vals & n & log0 & X_left & ys & log1 &
        _ & _ & _ & _ & _ & _ & Ha & _).
  apply assemble_inv in Ha as (_ & HX & _ & _ & best & Hb & Hbx & Hbf).
  split.
  - intros zs Hn. unfold np_argmin in Hb. rewrite Hn in Hb.
    destruct (argmin zs) as [i|] eqn:Hi; [|discriminate].
    inversion Hb; subst i; clear Hb.
    destruct (argmin_spec _ _ Hi) as (m & Hm & Hmin & Hfirst).
    exists best, m. rewrite HX. repeat split; auto.
    rewrite (as_nums_map _ _ Hn), nth_error_map, Hm in Hbf.
    simpl in Hbf. congruence.
  - intros i Hfl Hnan.
    destruct (first_nan_spec _ _ Hnan) as (Hi & Hfirst & Hnone).
    unfold np_argmin in Hb. rewrite Hnone, Hfl, Hnan in Hb.
    inversion Hb; subst best; clear Hb.
    rewrite HX. repeat split; auto. congruence.
Qed.

(** C4. With an integer seed the run does not depend on the ambient
    generator: two runs with the same arguments give the same outcome and
    the same event log.  A completed run calls the space sampler exactly
    once, with the generator built from the seed, and the points it returns
    after the initial ones are the points of that single call. *)
Theorem dummy_minimize_seed_deterministic (g1 g2 : rng) (d : dims) (N : Z)
    (x0 y0 : pyval) (s : Z) :
  dummy_minimize g1 d N x0 y0 (SeedInt s)
  = dummy_minimize g2 d N x0 y0 (SeedInt s) /\
  forall res log,
    dummy_minimize g1 d N x0 y0 (SeedInt s) = (Ok res, log) ->
    exists r sp pts n X_left,
      RandomState s = Ok r /\ Space d = Ok sp /\
      normalize_x0 x0 = Ok pts /\
      rvs sp n r = Ok X_left /\
      samplings log = [EvRvs n r] /\
      res_x_iters res = pts ++ X_left.
Proof.
  split; [reflexivity|].
  intros res log Hrun.
  run_stages Hrun.
  exists r, sp, pts, n, X_left.
  apply assemble_inv in Ha as (_ & HX & _).
  apply evaluate_left_inv in He as (_ & _ & -> & _).
  repeat split; auto.
  rewrite samplings_app. simpl. rewrite samplings_calls.
  apply initial_values_inv in Hi
    as [(_ & _ & _ & ->)|[(_ & _ & _ & _ & ->)|(_ & _ & _ & _ & _ & _ & ->)]];
    rewrite ?samplings_calls; reflexivity.
Qed.

(** C5 (as the code has it). When the initial values are computed from the
    initial points, or when there are no initial points, the first objective
    evaluation of the run (at the first initial point, respectively at the
    first sampled point) is checked for scalarity, and a non-scalar makes
    the run fail with "The function to be optimized should return a scalar"
    with no further objective call: the event log ends at that call. *)
Theorem dummy_minimize_first_evaluation_checked (global : rng) (d : dims)
    (N : Z) (x0 y0 : pyval) (rs : seed) (r : rng) (sp : space)
    (pts : list pyval) (p v : pyval) (before : list event) :
  check_random_state global rs = Ok r ->
  Space d = Ok sp ->
  normalize_x0 x0 = Ok pts ->
  (y0 = PNone /\ hd_error pts = Some p /\ before = []) \/
  (pts = [] /\ before = [EvRvs N r] /\
   exists X_left, rvs sp N r = Ok X_left /\ hd_error X_left = Some p) ->
  func p = Ok v ->
  np_isscalar v = false ->
  dummy_minimize global d N x0 y0 rs
  = (Err (ValueError func_not_scalar), before ++ [EvCall p]).
Proof.
  intros Hr Hsp Hx Hcase Hv Hsc.
  destruct Hcase as [(-> & Hp & ->)|(-> & -> & X_left & Hs & Hp)].
  - destruct pts as [|q ps]; [discriminate|]. inversion Hp; subst q.
    apply (dummy_minimize_init_err _ _ _ _ _ _ _ _ _ _ _ Hr Hsp Hx).
    now apply initial_values_computed_nonscalar with (v := v).
  - rewrite (dummy_minimize_stages _ _ _ _ _ _ _ _ _ _ _ _ Hr Hsp Hx
               (initial_values_none y0 N)).
    rewrite Hs.
    assert (Hp' : nth_error X_left 0 = Some p) by (destruct X_left; auto).
    now rewrite (evaluate_left_nonscalar _ _ _ N Hp' Hv Hsc).
Qed.

(** C6. When initial points and initial values are both given, the run
    fails before any objective evaluation or sampling (the event log is
    empty): with "x0 and y0 should have the same length" when the values,
    a single number being wrapped into a one-element list, are not as many
    as the points; with "y0 elements should be scalars" when they are as
    many and one of them is not a scalar; and with "Expected y0 to be an
    iterable or a scalar" when [y0] is neither an iterable nor a number. *)
Theorem dummy_minimize_initial_values_checked (global : rng) (d : dims)
    (N : Z) (x0 y0 : pyval) (rs : seed) (r : rng) (sp : space)
    (pts : list pyval) :
  check_random_state global rs = Ok r ->
  Space d = Ok sp ->
  normalize_x0 x0 = Ok pts ->
  x0 <> PNone -> y0 <> PNone ->
  (forall vals, y0_as_list y0 = Some vals ->
     List.length vals <> List.length pts ->
     dummy_minimize global d N x0 y0 rs
     = (Err (ValueError length_mismatch), [])) /\
  (forall vals w, y0_as_list y0 = Some vals ->
     List.length vals = List.length pts ->
     In w vals -> np_isscalar w = false ->
     dummy_minimize global d N x0 y0 rs
     = (Err (ValueError y0_not_scalars), [])) /\
  (isinstance_Iterable y0 = false -> isinstance_Number y0 = false ->
     dummy_minimize global d N x0 y0 rs
     = (Err (ValueError y0_bad_type), [])).
Proof.
  intros Hr Hsp Hx Hx0 Hy0.
  pose proof (normalize_x0_nonempty _ _ Hx Hx0) as Hp.
  pose proof (initial_values_supplied pts y0 N Hp Hy0) as Hi.
  repeat split.
  - intros vals Hl Hlen. rewrite Hl in Hi.
    apply (dummy_minimize_init_err _ _ _ _ _ _ _ _ _ _ _ Hr Hsp Hx).
    rewrite Hi. destruct (Nat.eqb_spec (List.length pts) (List.length vals));
      [congruence | reflexivity].
  - intros vals w Hl Hlen Hw Hsc. rewrite Hl in Hi.
    apply (dummy_minimize_init_err _ _ _ _ _ _ _ _ _ _ _ Hr Hsp Hx).
    rewrite Hi, Hlen, Nat.eqb_refl. cbn [negb].
    destruct (forallb np_isscalar vals) eqn:Hall; [|reflexivity].
    rewrite forallb_forall in Hall. rewrite (Hall w Hw) in Hsc. discriminate.
  - intros Hit Hnum.
    apply (dummy_minimize_init_err _ _ _ _ _ _ _ _ _ _ _ Hr Hsp Hx).
    rewrite Hi. unfold y0_as_list. now rewrite Hit, Hnum.
Qed.

(** X12. A list whose first element is not a list is taken as a single
    point: the run on it is the run on the one-element list holding it,
    outcome and event log alike. *)
Lemma dummy_minimize_flat_point (global : rng) (d : dims) (N : Z)
    (e : pyval) (es : list pyval) (y0 : pyval) (rs : seed) :
  isinstance_list e = false ->
  dummy_minimize global d N (PList (e :: es)) y0 rs
  = dummy_minimize global d N (PList [PList (e :: es)]) y0 rs.
Proof.
  intros He. unfold dummy_minimize.
  now rewrite (normalize_x0_flat _ _ He), normalize_x0_list_of_lists.
Qed.

(** The guard of line 79 fires only for a tuple whose first element is a
    list. *)
Lemma normalize_x0_guard (x0 : pyval) :
  normalize_x0 x0 = Err (ValueError x0_not_list) <->
  exists p ps, x0 = PTuple (PList p :: ps).
Proof.
  split.
  - unfold normalize_x0. destruct x0 as [|z|s|l|l|n| |z]; simpl; try discriminate.
    + destruct s; simpl; discriminate.
    + destruct l as [|e l]; simpl; [discriminate|].
      destruct (isinstance_list e); discriminate.
    + destruct l as [|e l]; simpl; [discriminate|].
      destruct e; simpl; try discriminate. intros _. eauto.
  - intros (p & ps & ->). reflexivity.
Qed.

(** C7 (the code at inputs that are not lists). A number or an arbitrary
    object given as [x0] fails with a [TypeError] on [x0[0]], before the
    guard of line 79 is reached; a tuple of numbers and a string are wrapped
    into a one-element list of points and accepted; the guard's
    [ValueError] is raised for a tuple of lists. *)
Theorem normalize_x0_non_list_inputs :
  normalize_x0 (PNum 5) = Err TypeError /\
  normalize_x0 (PObj 0) = Err TypeError /\
  normalize_x0 (PTuple [PNum 5]) = Ok [PTuple [PNum 5]] /\
  normalize_x0 (PStr "abc") = Ok [PStr "abc"] /\
  normalize_x0 (PTuple [PList [PNum 5]]) = Err (ValueError x0_not_list).
Proof. repeat split. Qed.

(** C8. With more initial points than the call budget and no initial
    values, once the initial points are evaluated the remaining budget
    [N - k] is negative and is handed unchanged to the space sampler: the
    driver raises no error of its own and does not clamp the request, and
    the outcome of the run is whatever the sampler makes of it. *)
Theorem dummy_minimize_negative_budget (global : rng) (d : dims) (N : Z)
    (x0 : pyval) (rs : seed) (r : rng) (sp : space)
    (pts vals : list pyval) (v : pyval) :
  check_random_state global rs = Ok r ->
  Space d = Ok sp ->
  normalize_x0 x0 = Ok pts ->
  N < Z.of_nat (List.length pts) ->
  Forall2 returns pts vals ->
  hd_error vals = Some v -> np_isscalar v = true ->
  N - Z.of_nat (List.length pts) < 0 /\
  dummy_minimize global d N x0 PNone rs
  = (match rvs sp (N - Z.of_nat (List.length pts)) r with
     | Err e => Err e
     | Ok X_left => assemble sp (pts ++ X_left) vals
     end,
     map EvCall pts ++ [EvRvs (N - Z.of_nat (List.length pts)) r]).
Proof.
  intros Hr Hsp Hx Hlt HF Hhd Hsc. split; [lia|].
  rewrite (dummy_minimize_stages _ _ _ _ _ _ _ _ _ _ _ _ Hr Hsp Hx
             (initial_values_computed_ok _ _ _ N HF Hhd Hsc)).
  destruct (rvs sp (N - Z.of_nat (List.length pts)) r) as [X_left|e];
    [|reflexivity].
  unfold evaluate_left, py_range.
  destruct vals as [|w ws]; [discriminate|]. cbn [truthy].
  replace (Z.to_nat (N - Z.of_nat (List.length pts)) - 0)%nat with 0%nat by lia.
  simpl. now rewrite app_nil_r.
Qed.

(** C9. An empty list given as [x0] is not treated as [None]: [None]
    normalises to no initial points, while on [[]] the normalisation
    indexes [x0[0]] and the run fails with an [IndexError] before any
    objective evaluation or sampling. *)
Theorem dummy_minimize_empty_x0 (global : rng) (d : dims) (N : Z)
    (y0 : pyval) (rs : seed) (r : rng) (sp : space) :
  check_random_state global rs = Ok r ->
  Space d = Ok sp ->
  dummy_minimize global d N (PList []) y0 rs = (Err IndexError, []) /\
  normalize_x0 (PList []) = Err IndexError /\
  normalize_x0 PNone = Ok [].
Proof.
  intros Hr Hsp. repeat split.
  unfold dummy_minimize. now rewrite Hr, bind_lift_ok, Hsp, bind_lift_ok.
Qed.

(** C10. Initial values given without initial points are dropped silently:
    the run is the run with neither, and when it completes the returned
    points are the sampled ones, the returned values are the objective's
    values at them, and the objective was invoked on the sampled points
    only, [N] times for a budget [N >= 1]. *)
Theorem dummy_minimize_values_without_points (global : rng) (d : dims)
    (N : Z) (y0 : pyval) (rs : seed) :
  dummy_minimize global d N PNone y0 rs
  = dummy_minimize global d N PNone PNone rs /\
  forall res log,
    dummy_minimize global d N PNone y0 rs = (Ok res, log) ->
    exists r sp X_left ys,
      check_random_state global rs = Ok r /\ Space d = Ok sp /\
      rvs sp N r = Ok X_left /\
      res_x_iters res = X_left /\
      Forall2 returns (slice X_left 0 (fresh_count [] N)) ys /\
      np_array ys = Ok (res_func_vals res) /\
      log = EvRvs N r :: map EvCall (slice X_left 0 (fresh_count [] N)) /\
      called_points log = slice X_left 0 (fresh_count [] N) /\
      (0 < N -> List.length (called_points log) = Z.to_nat N).
Proof.
  split.
  - unfold dummy_minimize. rewrite normalize_x0_none.
    destruct (check_random_state global rs); [|reflexivity].
    rewrite bind_lift_ok.
    destruct (Space d); [|reflexivity].
    now rewrite !bind_lift_ok, !initial_values_none.
  - intros res log Hrun.
    run_stages Hrun.
    rewrite normalize_x0_none in Hx. inversion Hx; subst pts; clear Hx.
    rewrite initial_values_none in Hi. inversion Hi; subst; clear Hi.
    apply evaluate_left_inv in He as (HF & Hlen & -> & _).
    apply assemble_inv in Ha as (Hy & HX & _).
    exists r, sp, X_left, ys. simpl. rewrite called_points_calls.
    repeat split; auto.
    intros HN. rewrite Hlen. apply fresh_count_budget. now right.
Qed.

(** ** Every run, whatever its outcome *)

(** The run written out stage by stage, failures included. *)
Lemma dummy_minimize_cases (global : rng) (d : dims) (N : Z) (x0 y0 : pyval)
    (rs : seed) :
  dummy_minimize global d N x0 y0 rs =
  match check_random_state global rs with
  | Err e => (Err e, [])
  | Ok r =>
      match Space d with
      | Err e => (Err e, [])
      | Ok sp =>
          match normalize_x0 x0 with
          | Err e => (Err e, [])
          | Ok pts =>
              match fst (initial_values pts y0 N) with
              | Err e => (Err e, snd (initial_values pts y0 N))
              | Ok yn =>
                  match rvs sp (snd yn) r with
                  | Err e =>
                      (Err e,
                       snd (initial_values pts y0 N) ++ [EvRvs (snd yn) r])
                  | Ok X_left =>
                      (match fst (evaluate_left X_left (fst yn) (snd yn)) with
                       | Err e => Err e
                       | Ok ys => assemble sp (pts ++ X_left) (fst yn ++ ys)
                       end,
                       snd (initial_values pts y0 N)
                       ++ EvRvs (snd yn) r
                          :: snd (evaluate_left X_left (fst yn) (snd yn)))
                  end
              end
          end
      end
  end.
Proof.
  unfold dummy_minimize.
  destruct (check_random_state global rs) as [r|e]; [|reflexivity].
  rewrite bind_lift_ok.
  destruct (Space d) as [sp|e]; [|reflexivity].
  rewrite bind_lift_ok.
  destruct (normalize_x0 x0) as [pts|e]; [|reflexivity].
  rewrite bind_lift_ok.
  destruct (initial_values pts y0 N) as [[[vals n]|e] log0]; [|reflexivity].
  rewrite bind_ok. cbn [fst snd]. unfold call_rvs.
  destruct (rvs sp n r) as [X_left|e]; [|reflexivity].
  rewrite bind_ok.
  destruct (evaluate_left X_left vals n) as [[ys|e] log1]; simpl.
  - now rewrite app_nil_r.
  - reflexivity.
Qed.

Lemma bind_ret_log {A B} (m : M A) (g : A -> B) :
  snd (bind m (fun a => ret (g a))) = snd m.
Proof.
  destruct m as [[a|e] l]; unfold bind; simpl; auto. apply app_nil_r.
Qed.

Lemma mapM_call_log (xs : list pyval) :
  exists j, (j <= List.length xs)%nat /\
            snd (mapM call xs) = map EvCall (firstn j xs).
Proof.
  induction xs as [|x xs (j & Hj & IH)].
  - exists 0%nat. auto.
  - cbn [mapM]. unfold call at 1. destruct (func x) as [v|e].
    + rewrite bind_ok. cbn [snd]. rewrite bind_ret_log, IH.
      exists (S j). split; [simpl; lia | reflexivity].
    + rewrite bind_err. exists 1%nat. split; [simpl; lia | reflexivity].
Qed.

Lemma mapM_eval_at_log (X_left : list pyval) (n a : nat) :
  exists j, (j <= n)%nat /\
            snd (mapM (eval_at X_left) (seq a n))
            = map EvCall (slice X_left a j).
Proof.
  revert a; induction n as [|n IH]; intros a.
  - exists 0%nat. auto.
  - cbn [seq mapM]. unfold eval_at at 1, getitem.
    destruct (nth_error X_left a) as [x|] eqn:Hx.
    + rewrite bind_lift_ok. unfold call at 1.
      destruct (IH (S a)) as (j & Hj & Hlog).
      destruct (func x) as [v|e].
      * rewrite bind_ok. cbn [snd]. rewrite bind_ret_log, Hlog.
        exists (S j). split; [lia|]. unfold slice.
        now rewrite (skipn_nth_error _ _ _ Hx), firstn_cons.
      * rewrite bind_err. exists 1%nat. split; [lia|]. unfold slice.
        now rewrite (skipn_nth_error _ _ _ Hx).
    + exists 0%nat. split; [lia | reflexivity].
Qed.

Lemma initial_values_log (x0 : list pyval) (y0 : pyval) (n : Z) :
  exists j, (j <= List.length x0)%nat /\
            snd (initial_values x0 y0 n) = map EvCall (firstn j x0) /\
            (y0 <> PNone -> j = 0%nat).
Proof.
  destruct x0 as [|x xs].
  - exists 0%nat. rewrite initial_values_none. auto.
  - destruct (match y0 with PNone => true | _ => false end) eqn:Hy.
    + destruct y0; try discriminate. cbn [initial_values].
      unfold call at 1. destruct (func x) as [v|e].
      * rewrite bind_ok. cbn [fst snd].
        destruct (np_isscalar v); cbn [negb].
        -- destruct (mapM_call_log xs) as (j & Hj & Hlog).
           rewrite bind_ret_log, Hlog. exists (S j).
           repeat split; [simpl; lia | congruence].
        -- exists 1%nat. repeat split; [simpl; lia | congruence].
      * rewrite bind_err. exists 1%nat.
        repeat split; [simpl; lia | congruence].
    + assert (Hne : y0 <> PNone) by (intros ->; discriminate).
      exists 0%nat. rewrite initial_values_supplied by (auto; discriminate).
      repeat split; [lia|].
      destruct (y0_as_list y0) as [vals|]; [|reflexivity].
      destruct (negb (_ =? _)%nat); [reflexivity|].
      destruct (negb (forallb _ _)); reflexivity.
Qed.

Lemma evaluate_left_log (X_left y0 : list pyval) (n : Z) :
  exists j, (j <= fresh_count y0 n)%nat /\
            snd (evaluate_left X_left y0 n) = map EvCall (slice X_left 0 j).
Proof.
  unfold evaluate_left, fresh_count, py_range.
  destruct y0 as [|w ws]; cbn [truthy].
  - unfold eval_at at 1, getitem.
    destruct (nth_error X_left 0) as [x|] eqn:Hx.
    + rewrite bind_lift_ok. unfold call at 1. destruct (func x) as [v|e].
      * rewrite bind_ok. cbn [fst snd].
        destruct (np_isscalar v); cbn [negb].
        -- destruct (mapM_eval_at_log X_left (Z.to_nat n - 1) 1)
             as (j & Hj & Hlog).
           rewrite bind_ret_log, Hlog. exists (S j). split; [lia|].
           now rewrite (slice_head _ _ _ Hx).
        -- exists 1%nat. split; [lia|]. now rewrite (slice_head _ _ _ Hx).
      * rewrite bind_err. exists 1%nat. split; [lia|].
        now rewrite (slice_head _ _ _ Hx).
    + exists 0%nat. split; [lia | reflexivity].
  - rewrite Nat.sub_0_r. apply mapM_eval_at_log.
Qed.

Lemma called_points_slice_le (X_left : list pyval) (a j : nat) :
  (List.length (called_points (map EvCall (slice X_left a j))) <= j)%nat.
Proof.
  rewrite called_points_calls. unfold slice. apply firstn_le_length.
Qed.

(** X1. Whatever the outcome of a run, its event log is a block of
    objective calls, then at most one sampler call, then a block of
    objective calls.  When the sampler is called it is called with the
    generator obtained from [random_state], and only once every initial
    point has been evaluated (values computed) or none has (values supplied,
    or no initial points). *)
Theorem dummy_minimize_log_shape (global : rng) (d : dims) (N : Z)
    (x0 y0 : pyval) (rs : seed) :
  exists a b,
    snd (dummy_minimize global d N x0 y0 rs) = map EvCall a ++ b /\
    (b = [] \/
     exists r pts n c,
       check_random_state global rs = Ok r /\
       normalize_x0 x0 = Ok pts /\
       (a = [] \/ (y0 = PNone /\ a = pts)) /\
       b = EvRvs n r :: map EvCall c) /\
    (List.length (samplings (snd (dummy_minimize global d N x0 y0 rs))) <= 1)%nat.
Proof.
  rewrite dummy_minimize_cases.
  destruct (check_random_state global rs) as [r|e];
    [|exists [], []; simpl; auto].
  destruct (Space d) as [sp|e]; [|exists [], []; simpl; auto].
  destruct (normalize_x0 x0) as [pts|e]; [|exists [], []; simpl; auto].
  destruct (initial_values pts y0 N) as [[[vals n]|e] log0] eqn:Hi;
    cbn [fst snd].
  - assert (Ha : exists a, log0 = map EvCall a /\
                           (a = [] \/ (y0 = PNone /\ a = pts))).
    { apply initial_values_inv in Hi
        as [(_ & _ & _ & ->)|[(_ & -> & _ & _ & ->)|(_ & _ & _ & _ & _ & _ & ->)]].
      - exists []. auto.
      - exists pts. auto.
      - exists []. auto. }
    destruct Ha as (a & -> & Ha).
    destruct (rvs sp n r) as [X_left|e]; cbn [snd].
    + destruct (evaluate_left_log X_left vals n) as (j & _ & ->).
      exists a, (EvRvs n r :: map EvCall (slice X_left 0 j)).
      repeat split.
      * right. exists r, pts, n, (slice X_left 0 j). auto.
      * rewrite samplings_app, samplings_calls. simpl.
        rewrite samplings_calls. simpl. lia.
    + exists a, [EvRvs n r]. repeat split.
      * right. exists r, pts, n, []. auto.
      * rewrite samplings_app, samplings_calls. simpl. lia.
  - destruct (initial_values_log pts y0 N) as (j & _ & Hlog & _).
    rewrite Hi in Hlog. cbn [snd] in Hlog. subst log0.
    exists (firstn j pts), []. rewrite app_nil_r, samplings_calls.
    repeat split; auto.
Qed.

(** X2. The objective is never invoked more often than the call budget:
    for a budget [N >= 1] that covers the initial points to be evaluated,
    every run, completed or failed, makes at most [N] objective calls. *)
Theorem dummy_minimize_budget_respected (global : rng) (d : dims) (N : Z)
    (x0 y0 : pyval) (rs : seed) :
  1 <= N ->
  (forall pts, y0 = PNone -> normalize_x0 x0 = Ok pts ->
               Z.of_nat (List.length pts) <= N) ->
  Z.of_nat (List.length
              (called_points (snd (dummy_minimize global d N x0 y0 rs)))) <= N.
Proof.
  intros HN Hk. rewrite dummy_minimize_cases.
  destruct (check_random_state global rs) as [r|e]; [|simpl; lia].
  destruct (Space d) as [sp|e]; [|simpl; lia].
  destruct (normalize_x0 x0) as [pts|e]; [|simpl; lia].
  specialize (Hk pts).
  destruct (initial_values pts y0 N) as [[[vals n]|e] log0] eqn:Hi;
    cbn [fst snd].
  - assert (Hb : (List.length (called_points log0) + fresh_count vals n
                  <= Z.to_nat N)%nat).
    { apply initial_values_inv in Hi
        as [(-> & -> & -> & ->)|[(Hp & -> & HF & -> & ->)
                                |(Hp & _ & _ & Hlen & _ & -> & ->)]].
      - unfold fresh_count. simpl. lia.
      - rewrite called_points_calls. specialize (Hk eq_refl eq_refl).
        rewrite fresh_count_budget.
        + lia.
        + left. destruct vals; [|discriminate]. inversion HF. congruence.
      - simpl. rewrite fresh_count_budget; [lia|].
        left. destruct vals; [|discriminate].
        destruct pts; [congruence|discriminate]. }
    destruct (rvs sp n r) as [X_left|e]; cbn [snd].
    + destruct (evaluate_left_log X_left vals n) as (j & Hj & ->).
      rewrite called_points_app. cbn [called_points]. rewrite length_app.
      pose proof (called_points_slice_le X_left 0 j). lia.
    + rewrite called_points_app, length_app. simpl. lia.
  - destruct (initial_values_log pts y0 N) as (j & Hj & Hlog & Hy).
    rewrite Hi in Hlog. cbn [snd] in Hlog. subst log0.
    rewrite called_points_calls, length_firstn.
    destruct (match y0 with PNone => true | _ => false end) eqn:Hy0.
    + destruct y0; try discriminate. specialize (Hk eq_refl eq_refl). lia.
    + assert (j = 0%nat) by (apply Hy; intros ->; discriminate). lia.
Qed.

(** ** Completed runs *)

(** X3. In a completed run whose initial values are computed, the objective
    is invoked first on the initial points, in the caller's order, and then
    on the first [N - k] sampled points, in sampling order; when the budget
    covers the initial points these are exactly [N] invocations. *)
Theorem dummy_minimize_computed_calls (global : rng) (d : dims) (N : Z)
    (x0 : pyval) (rs : seed) (res : OptimizeResult) (log : list event) :
  dummy_minimize global d N x0 PNone rs = (Ok res, log) ->
  x0 <> PNone ->
  exists r sp pts X_left,
    check_random_state global rs = Ok r /\ Space d = Ok sp /\
    normalize_x0 x0 = Ok pts /\
    rvs sp (N - Z.of_nat (List.length pts)) r = Ok X_left /\
    log = map EvCall pts
          ++ EvRvs (N - Z.of_nat (List.length pts)) r
             :: map EvCall
                  (slice X_left 0 (Z.to_nat (N - Z.of_nat (List.length pts)))) /\
    called_points log
    = pts ++ slice X_left 0 (Z.to_nat (N - Z.of_nat (List.length pts))) /\
    (Z.of_nat (List.length pts) <= N ->
     List.length (called_points log) = Z.to_nat N).
Proof.
  intros Hrun Hx0. run_stages Hrun.
  pose proof (normalize_x0_nonempty _ _ Hx Hx0) as Hp.
  apply initial_values_inv in Hi
    as [(? & _)|[(_ & _ & HF & -> & ->)|(_ & ? & _)]]; try congruence.
  apply evaluate_left_inv in He as (_ & Hlen & -> & _).
  assert (Hc : fresh_count vals (N - Z.of_nat (List.length pts))
               = Z.to_nat (N - Z.of_nat (List.length pts))).
  { apply fresh_count_budget. left. destruct vals; [|discriminate].
    inversion HF. congruence. }
  rewrite Hc in *.
  exists r, sp, pts, X_left.
  rewrite called_points_app. cbn [called_points].
  rewrite !called_points_calls. repeat split; auto.
  intros Hk. rewrite length_app, Hlen. lia.
Qed.

Lemma Forall2_nth_error_rel {A B} (R : A -> B -> Prop) (l1 : list A)
    (l2 : list B) (i : nat) (a : A) (b : B) :
  Forall2 R l1 l2 -> nth_error l1 i = Some a -> nth_error l2 i = Some b ->
  R a b.
Proof.
  intros HF. revert i. induction HF as [|x y l1 l2 Hxy _ IH]; intros [|i];
    simpl; try discriminate.
  - intros H1 H2. inversion H1; inversion H2; subst. exact Hxy.
  - apply IH.
Qed.

Lemma Forall2_In_left {A B} (R : A -> B -> Prop) (l1 : list A) (l2 : list B)
    (a : A) :
  Forall2 R l1 l2 -> In a l1 -> exists b, In b l2 /\ R a b.
Proof.
  induction 1 as [|x y l1 l2 Hxy _ IH]; simpl; [intros []|].
  intros [->|Ha].
  - exists y. auto.
  - destruct (IH Ha) as (b & Hb & Hr). exists b. auto.
Qed.

Lemma nth_error_app_firstn {A} (l1 l2 : list A) (c i : nat) :
  (i < List.length (l1 ++ firstn c l2))%nat ->
  nth_error (l1 ++ l2) i = nth_error (l1 ++ firstn c l2) i.
Proof.
  intros Hi. rewrite length_app in Hi.
  destruct (Nat.lt_ge_cases i (List.length l1)) as [Hlt|Hge].
  - now rewrite !nth_error_app1.
  - rewrite !nth_error_app2 by assumption.
    rewrite nth_error_firstn.
    rewrite length_firstn in Hi.
    destruct (Nat.ltb_spec (i - List.length l1) c); [reflexivity | lia].
Qed.

Lemma numeric_values (xs ys : list pyval) :
  (forall x v, func x = Ok v -> is_plain_number v = true) ->
  Forall2 returns xs ys -> exists zs, ys = map PNum zs.
Proof.
  intros Hnum. induction 1 as [|x v xs ys Hv _ (zs & ->)].
  - exists []. reflexivity.
  - apply Hnum in Hv. destruct v; try discriminate.
    exists (z :: zs). reflexivity.
Qed.

(** X4. When the initial values are not supplied and the objective returns
    only exact numbers (floats other than NaN, or ints that a float array
    holds exactly, so that [np.array] rounds nothing), the reported best
    point of a completed run is one of the points the objective was invoked
    on, the reported best value is the objective's value at it, and no
    invoked point has a smaller value. *)
Theorem dummy_minimize_reports_evaluated_minimum (global : rng) (d : dims) (N : Z)
    (x0 y0 : pyval) (rs : seed) (res : OptimizeResult) (log : list event) :
  dummy_minimize global d N x0 y0 rs = (Ok res, log) ->
  x0 = PNone \/ y0 = PNone ->
  (forall x v, func x = Ok v -> is_plain_number v = true) ->
  exists m,
    res_fun res = PNum m /\
    In (res_x res) (called_points log) /\
    func (res_x res) = Ok (PNum m) /\
    forall x, In x (called_points log) ->
              exists z, func x = Ok (PNum z) /\ m <= z.
Proof.
  intros Hrun Hmode Hnum. run_stages Hrun.
  assert (Hinit : Forall2 returns pts vals /\ log0 = map EvCall pts).
  { apply initial_values_inv in Hi
      as [(-> & -> & _ & ->)|[(_ & _ & HF & _ & ->)|(Hp & Hy & _)]].
    - split; [constructor | reflexivity].
    - auto.
    - destruct Hmode as [-> | ->]; [|congruence].
      rewrite normalize_x0_none in Hx. inversion Hx. congruence. }
  destruct Hinit as [HF0 ->].
  apply evaluate_left_inv in He as (HF1 & _ & -> & _).
  set (c := fresh_count vals n) in *.
  assert (HF : Forall2 returns (pts ++ slice X_left 0 c) (vals ++ ys))
    by (apply Forall2_app; assumption).
  rewrite called_points_app. cbn [called_points].
  rewrite !called_points_calls.
  destruct (numeric_values _ _ Hnum HF) as (zs & Hzs).
  apply assemble_inv in Ha as (Hy & HX & _ & _ & best & Hb & Hbx & Hbf).
  unfold np_array in Hy. rewrite Hzs, as_nums_of_map in Hy.
  inversion Hy as [Hfv]; clear Hy.
  unfold np_argmin in Hb. rewrite <- Hfv, as_nums_of_map in Hb.
  destruct (argmin zs) as [i|] eqn:Harg; [|discriminate].
  inversion Hb; subst i; clear Hb.
  destruct (argmin_spec _ _ Harg) as (m & Hm & Hmin & _).
  rewrite <- Hfv, nth_error_map, Hm in Hbf. simpl in Hbf.
  inversion Hbf as [Hfun]; clear Hbf.
  assert (Hlt : (best < List.length (pts ++ slice X_left 0 c))%nat).
  { rewrite (Forall2_length HF), Hzs, length_map.
    apply nth_error_Some. congruence. }
  unfold slice in *. simpl skipn in *.
  rewrite (nth_error_app_firstn _ _ c _ Hlt) in Hbx.
  assert (Hbest : returns (res_x res) (PNum m)).
  { apply (Forall2_nth_error_rel _ _ _ best _ _ HF Hbx).
    now rewrite Hzs, nth_error_map, Hm. }
  exists m. repeat split; auto.
  - eapply nth_error_In; eauto.
  - intros x Hin.
    destruct (Forall2_In_left _ _ _ _ HF Hin) as (v & Hv & Hret).
    rewrite Hzs in Hv. apply in_map_iff in Hv as (z & <- & Hz).
    exists z. split; [exact Hret | now apply Hmin].
Qed.

(** X5. Every completed run returns a non-empty trace: the space built
    from [dimensions], no models, the normalised initial points at the head
    of the point sequence, and a best point and best value read at one and
    the same index of the two sequences. *)
Theorem dummy_minimize_result_shape (global : rng) (d : dims) (N : Z)
    (x0 y0 : pyval) (rs : seed) (res : OptimizeResult) (log : list event) :
  dummy_minimize global d N x0 y0 rs = (Ok res, log) ->
  exists pts X_left best,
    Space d = Ok (res_space res) /\
    res_models res = [] /\
    normalize_x0 x0 = Ok pts /\
    res_x_iters res = pts ++ X_left /\
    nth_error (res_x_iters res) best = Some (res_x res) /\
    nth_error (res_func_vals res) best = Some (res_fun res) /\
    res_x_iters res <> [] /\ res_func_vals res <> [].
Proof.
  intros Hrun. run_stages Hrun.
  apply assemble_inv in Ha as (_ & HX & Hsp' & Hm & best & _ & Hbx & Hbf).
  exists pts, X_left, best. rewrite HX, Hsp', Hm in *.
  repeat split; auto.
  - intros Hnil. rewrite Hnil in Hbx. destruct best; discriminate.
  - intros Hnil. rewrite Hnil in Hbf. destruct best; discriminate.
Qed.

(** ** Runs that fail during evaluation *)

Lemma mapM_call_raises (pre vs post : list pyval) (x : pyval) (e : exn) :
  Forall2 returns pre vs -> func x = Err e ->
  mapM call (pre ++ x :: post) = (Err e, map EvCall (pre ++ [x])).
Proof.
  intros HF Hx. induction HF as [|p v pre vs Hp _ IH]; cbn [app mapM map].
  - unfold call at 1. now rewrite Hx, bind_err.
  - unfold call at 1. now rewrite Hp, bind_ok, IH, bind_err.
Qed.

Lemma slice_cons_inv (X_left : list pyval) (a n : nat) (y : pyval)
    (rest : list pyval) :
  slice X_left a n = y :: rest ->
  exists n', n = S n' /\ nth_error X_left a = Some y /\
             slice X_left (S a) n' = rest.
Proof.
  unfold slice. destruct n as [|n']; [discriminate|].
  destruct (nth_error X_left a) as [z|] eqn:Hz.
  - rewrite (skipn_nth_error _ _ _ Hz), firstn_cons. intros H.
    inversion H; subst. exists n'. auto.
  - rewrite (skipn_nth_error_none _ _ Hz). discriminate.
Qed.

Lemma mapM_eval_at_raises (X_left pre vs post : list pyval) (x : pyval)
    (e : exn) :
  Forall2 returns pre vs -> func x = Err e ->
  forall a n, slice X_left a n = pre ++ x :: post ->
  mapM (eval_at X_left) (seq a n) = (Err e, map EvCall (pre ++ [x])).
Proof.
  intros HF Hx. induction HF as [|p v pre vs Hp _ IH]; intros a n Hs;
    cbn [app] in Hs; apply slice_cons_inv in Hs as (n' & -> & Hn & Hs);
    cbn [seq mapM app map]; unfold eval_at at 1, getitem;
    rewrite Hn, bind_lift_ok; unfold call at 1.
  - now rewrite Hx, bind_err.
  - now rewrite Hp, bind_ok, (IH _ _ Hs), bind_err.
Qed.

Lemma mapM_eval_at_short (X_left : list pyval) (n : nat) :
  forall a ys,
  (List.length (skipn a X_left) < n)%nat ->
  Forall2 returns (skipn a X_left) ys ->
  mapM (eval_at X_left) (seq a n)
  = (Err IndexError, map EvCall (skipn a X_left)).
Proof.
  induction n as [|n IH]; intros a ys Hlen HF; [lia|].
  cbn [seq mapM]. unfold eval_at at 1, getitem.
  destruct (nth_error X_left a) as [x|] eqn:Hx.
  - rewrite (skipn_nth_error _ _ _ Hx) in *.
    inversion HF as [|? v ? vs Hv HF']; subst.
    cbn [List.length] in Hlen.
    rewrite bind_lift_ok. unfold call at 1.
    rewrite Hv, bind_ok, (IH (S a) vs) by (auto; lia).
    now rewrite bind_err.
  - now rewrite (skipn_nth_error_none _ _ Hx).
Qed.

(** X6. An exception raised by the objective at an initial point ends the
    run with that exception: the points before it have been evaluated, the
    sampler is never called and no later point is evaluated. *)
Theorem dummy_minimize_initial_raises (global : rng) (d : dims) (N : Z)
    (x0 : pyval) (rs : seed) (r : rng) (sp : space)
    (pre vs post : list pyval) (x : pyval) (e : exn) :
  check_random_state global rs = Ok r ->
  Space d = Ok sp ->
  normalize_x0 x0 = Ok (pre ++ x :: post) ->
  Forall2 returns pre vs ->
  (forall v, hd_error vs = Some v -> np_isscalar v = true) ->
  func x = Err e ->
  dummy_minimize global d N x0 PNone rs = (Err e, map EvCall (pre ++ [x])).
Proof.
  intros Hr Hsp Hx HF Hsc He.
  apply (dummy_minimize_init_err _ _ _ _ _ _ _ _ _ _ _ Hr Hsp Hx).
  destruct HF as [|p v pre vs Hp HF]; cbn [app initial_values map].
  - unfold call. now rewrite He, bind_err.
  - unfold call at 1. rewrite Hp, bind_ok. cbn [fst snd].
    rewrite (Hsc v eq_refl). cbn [negb].
    now rewrite (mapM_call_raises _ _ post _ _ HF He), bind_err.
Qed.

(** X7. An exception raised by the objective at a sampled point ends the
    run with that exception: the event log is that of the initial stage, the
    sampler call, and the objective calls up to and including the failing
    one; no result is returned. *)
Theorem dummy_minimize_fresh_raises (global : rng) (d : dims) (N : Z)
    (x0 y0 : pyval) (rs : seed) (r : rng) (sp : space)
    (pts vals X_left pre vs post : list pyval) (n : Z) (log0 : list event)
    (x : pyval) (e : exn) :
  check_random_state global rs = Ok r ->
  Space d = Ok sp ->
  normalize_x0 x0 = Ok pts ->
  initial_values pts y0 N = (Ok (vals, n), log0) ->
  rvs sp n r = Ok X_left ->
  slice X_left 0 (fresh_count vals n) = pre ++ x :: post ->
  Forall2 returns pre vs ->
  (vals = [] -> forall v, hd_error vs = Some v -> np_isscalar v = true) ->
  func x = Err e ->
  dummy_minimize global d N x0 y0 rs
  = (Err e, log0 ++ EvRvs n r :: map EvCall (pre ++ [x])).
Proof.
  intros Hr Hsp Hx Hi Hs Hsl HF Hsc He.
  rewrite (dummy_minimize_stages _ _ _ _ _ _ _ _ _ _ _ _ Hr Hsp Hx Hi), Hs.
  assert (Hev : evaluate_left X_left vals n
                = (Err e, map EvCall (pre ++ [x]))).
  { unfold evaluate_left, fresh_count, py_range in *.
    destruct vals as [|w ws]; cbn [truthy] in *.
    - unfold eval_at at 1, getitem.
      destruct HF as [|p v pre vs Hp HF]; cbn [app] in *;
        apply slice_cons_inv in Hsl as (c & Hc & Hn & Hsl);
        injection Hc as <-;
        rewrite Hn, bind_lift_ok; unfold call at 1.
      + now rewrite He, bind_err.
      + rewrite Hp, bind_ok. cbn [fst snd].
        rewrite (Hsc eq_refl v eq_refl). cbn [negb].
        now rewrite (mapM_eval_at_raises _ _ _ _ _ _ HF He _ _ Hsl), bind_err.
    - rewrite Nat.sub_0_r.
      now apply mapM_eval_at_raises with (vs := vs) (post := post). }
  now rewrite Hev.
Qed.

(** X8. When the sampler returns fewer points than the driver goes on to
    index (in particular no point at all for a run without initial points),
    the run evaluates every returned point and then fails with an
    [IndexError]. *)
Theorem dummy_minimize_short_sample (global : rng) (d : dims) (N : Z)
    (x0 y0 : pyval) (rs : seed) (r : rng) (sp : space)
    (pts vals X_left ys : list pyval) (n : Z) (log0 : list event) :
  check_random_state global rs = Ok r ->
  Space d = Ok sp ->
  normalize_x0 x0 = Ok pts ->
  initial_values pts y0 N = (Ok (vals, n), log0) ->
  rvs sp n r = Ok X_left ->
  (List.length X_left < fresh_count vals n)%nat ->
  Forall2 returns X_left ys ->
  (vals = [] -> forall v, hd_error ys = Some v -> np_isscalar v = true) ->
  dummy_minimize global d N x0 y0 rs
  = (Err IndexError, log0 ++ EvRvs n r :: map EvCall X_left).
Proof.
  intros Hr Hsp Hx Hi Hs Hlen HF Hsc.
  rewrite (dummy_minimize_stages _ _ _ _ _ _ _ _ _ _ _ _ Hr Hsp Hx Hi), Hs.
  assert (Hev : evaluate_left X_left vals n
                = (Err IndexError, map EvCall X_left)).
  { unfold evaluate_left, fresh_count, py_range in *.
    destruct vals as [|w ws]; cbn [truthy] in *.
    - unfold eval_at at 1, getitem.
      destruct HF as [|p v X_left ys Hp HF]; [reflexivity|].
      cbn [nth_error List.length] in *. rewrite bind_lift_ok.
      unfold call at 1. rewrite Hp, bind_ok. cbn [fst snd].
      rewrite (Hsc eq_refl v eq_refl). cbn [negb].
      rewrite (mapM_eval_at_short (p :: X_left) _ 1 ys) by (simpl; auto; lia).
      now rewrite bind_err.
    - rewrite Nat.sub_0_r in *.
      now rewrite (mapM_eval_at_short X_left _ 0 ys). }
  now rewrite Hev.
Qed.

(** ** What the validation lets through *)

(** X9. Only the first objective result is tested.  When the initial values
    are computed and the first one is a scalar, every further result, scalar
    or not, goes into the value sequence: all initial points and all
    [N - k] sampled points are evaluated, and the outcome of the run is the
    outcome of the reduction on the full sequences. *)
Theorem dummy_minimize_later_results_unchecked (global : rng) (d : dims)
    (N : Z) (x0 : pyval) (rs : seed) (r : rng) (sp : space)
    (pts vals X_left ys : list pyval) (v : pyval) :
  check_random_state global rs = Ok r ->
  Space d = Ok sp ->
  normalize_x0 x0 = Ok pts ->
  Forall2 returns pts vals ->
  hd_error vals = Some v -> np_isscalar v = true ->
  rvs sp (N - Z.of_nat (List.length pts)) r = Ok X_left ->
  List.length X_left = Z.to_nat (N - Z.of_nat (List.length pts)) ->
  Forall2 returns X_left ys ->
  dummy_minimize global d N x0 PNone rs
  = (assemble sp (pts ++ X_left) (vals ++ ys),
     map EvCall pts
     ++ EvRvs (N - Z.of_nat (List.length pts)) r :: map EvCall X_left).
Proof.
  intros Hr Hsp Hx HF0 Hhd Hsc Hs Hlen HF1.
  rewrite (dummy_minimize_stages _ _ _ _ _ _ _ _ _ _ _ _ Hr Hsp Hx
             (initial_values_computed_ok _ _ _ N HF0 Hhd Hsc)), Hs.
  assert (Hc : fresh_count vals (N - Z.of_nat (List.length pts))
               = List.length X_left).
  { rewrite Hlen. apply fresh_count_budget. left.
    destruct vals; discriminate. }
  assert (Hsl : slice X_left 0
                  (fresh_count vals (N - Z.of_nat (List.length pts)))
                = X_left) by (rewrite Hc; apply slice_all).
  rewrite (evaluate_left_ok X_left vals ys).
  - cbn [fst snd]. now rewrite Hsl.
  - now rewrite Hsl.
  - now rewrite Hsl.
  - intros ->. discriminate.
Qed.

Lemma chars_length (s : string) :
  List.length (chars s) = String.length s.
Proof. induction s; simpl; congruence. Qed.

Lemma chars_scalars (s : string) : forallb np_isscalar (chars s) = true.
Proof. induction s; simpl; auto. Qed.

(** X10. A string given as [y0] passes the checks on the initial values
    when it has as many characters as there are initial points: its
    characters are taken as the values, the objective is not called on the
    initial points, the budget is unchanged, and the run goes on to
    sample. *)
Theorem dummy_minimize_string_values (global : rng) (d : dims) (N : Z)
    (x0 : pyval) (s : string) (rs : seed) (r : rng) (sp : space)
    (pts : list pyval) :
  check_random_state global rs = Ok r ->
  Space d = Ok sp ->
  normalize_x0 x0 = Ok pts ->
  x0 <> PNone ->
  String.length s = List.length pts ->
  initial_values pts (PStr s) N = (Ok (chars s, N), []) /\
  exists log1,
    snd (dummy_minimize global d N x0 (PStr s) rs) = EvRvs N r :: log1.
Proof.
  intros Hr Hsp Hx Hx0 Hlen.
  pose proof (normalize_x0_nonempty _ _ Hx Hx0) as Hp.
  assert (Hi : initial_values pts (PStr s) N = (Ok (chars s, N), [])).
  { rewrite initial_values_supplied by (auto; discriminate).
    cbn [y0_as_list isinstance_Iterable py_list].
    now rewrite chars_length, Hlen, Nat.eqb_refl, chars_scalars. }
  split; [exact Hi|].
  rewrite (dummy_minimize_stages _ _ _ _ _ _ _ _ _ _ _ _ Hr Hsp Hx Hi).
  destruct (rvs sp N r) as [X_left|e]; [|exists []; reflexivity].
  destruct (fst (evaluate_left X_left (chars s) N)); eexists; reflexivity.
Qed.

(** X11. The outcome of the normalisation of [x0], over the values of
    [pyval]: no initial points only for [None]; an [IndexError] exactly for
    an empty list, tuple or string; a [TypeError] exactly for a number (NaN
    and big ints included) or an object that cannot be indexed; the guard's "Expected x0 to be a
    list" exactly for a tuple whose first element is a list; otherwise
    the result is [x0] itself (a list whose first element is a list) or
    [x0] wrapped as a single point. *)
Theorem normalize_x0_outcomes (x0 : pyval) :
  (normalize_x0 x0 = Ok [] <-> x0 = PNone) /\
  (normalize_x0 x0 = Err IndexError <->
   x0 = PList [] \/ x0 = PTuple [] \/ x0 = PStr EmptyString) /\
  (normalize_x0 x0 = Err TypeError <->
   (exists z, x0 = PNum z) \/ (exists i, x0 = PObj i) \/
   x0 = PNaN \/ (exists z, x0 = PBigInt z)) /\
  (normalize_x0 x0 = Err (ValueError x0_not_list) <->
   exists p ps, x0 = PTuple (PList p :: ps)) /\
  (forall pts, normalize_x0 x0 = Ok pts ->
     (x0 = PNone /\ pts = []) \/
     (exists p ps, x0 = PList (PList p :: ps) /\ pts = PList p :: ps) \/
     (pts = [x0] /\ exists e, getitem0 x0 = Ok e /\ isinstance_list e = false)).
Proof.
  split; [|split; [|split; [|split]]].
  - split; [|intros ->; reflexivity].
    intros H. destruct x0; try reflexivity;
      exfalso; apply (normalize_x0_nonempty _ _ H); try discriminate;
      reflexivity.
  - split.
    + unfold normalize_x0. destruct x0 as [|z|s|l|l|n| |z]; simpl;
        try discriminate.
      * destruct s; simpl; [auto | discriminate].
      * destruct l as [|e l]; simpl; [auto|].
        destruct (isinstance_list e); discriminate.
      * destruct l as [|e l]; simpl; [auto|].
        destruct (isinstance_list e); discriminate.
    + intros [->|[->| ->]]; reflexivity.
  - split.
    + unfold normalize_x0. destruct x0 as [|z|s|l|l|n| |z]; simpl;
        try discriminate; eauto 6.
      * destruct s; simpl; discriminate.
      * destruct l as [|e l]; simpl; [discriminate|].
        destruct (isinstance_list e); discriminate.
      * destruct l as [|e l]; simpl; [discriminate|].
        destruct (isinstance_list e); discriminate.
    + intros [(z & ->)|[(i & ->)|[->|(z & ->)]]]; reflexivity.
  - apply normalize_x0_guard.
  - intros pts. unfold normalize_x0.
    destruct x0 as [|z|s|l|l|n| |z]; simpl; try discriminate.
    + intros H; inversion H. auto.
    + destruct s as [|c s]; simpl; [discriminate|].
      intros H; inversion H. right; right. split; [reflexivity|].
      eexists; split; reflexivity.
    + destruct l as [|e l]; simpl; [discriminate|].
      destruct (isinstance_list e) eqn:He; simpl; intros H; inversion H.
      * destruct e; try discriminate. right; left.
        eexists; eexists; split; reflexivity.
      * right; right. split; [reflexivity|].
        exists e. split; [reflexivity | exact He].
    + destruct l as [|e l]; simpl; [discriminate|].
      destruct (isinstance_list e) eqn:He; simpl; [discriminate|].
      intros H; inversion H. right; right. split; [reflexivity|].
      exists e. split; [reflexivity | exact He].
Qed.

End Run.

End Driver.

(** ** The driver on the concrete collaborators *)

Notation toy_minimize :=
  (dummy_minimize Toy.RandomState Toy.Space Toy.rvs
                  Toy.array_other Toy.argmin_other).

(** Scenario of the spec: two initial points with their two values and a
    budget of 5.  The budget is not reduced: 5 fresh points are evaluated
    and the trace has 7 entries. *)
Example scenario_supplied_values :
  toy_minimize Toy.sq3 0 Toy.box 5 Toy.two_points Toy.two_values (SeedInt 0)
  = (Ok (mkResult (PList [PNum 3]) (PNum 0)
           (map PNum [4; 36; 9; 16; 0; 49; 9])
           (map (fun z => PList [PNum z]) [1; 9; 0; 7; 3; 10; 6])
           Toy.box []),
     EvRvs 5 0 :: map (fun z => EvCall (PList [PNum z])) [0; 7; 3; 10; 6]).
Proof. reflexivity. Qed.

(** The same initial points without values: they are evaluated first, and
    3 fresh points follow. *)
Example scenario_computed_values :
  toy_minimize Toy.sq3 0 Toy.box 5 Toy.two_points PNone (SeedInt 0)
  = (Ok (mkResult (PList [PNum 3]) (PNum 0)
           (map PNum [4; 36; 9; 16; 0])
           (map (fun z => PList [PNum z]) [1; 9; 0; 7; 3])
           Toy.box []),
     [EvCall (PList [PNum 1]); EvCall (PList [PNum 9]); EvRvs 3 0;
      EvCall (PList [PNum 0]); EvCall (PList [PNum 7]);
      EvCall (PList [PNum 3])]).
Proof. reflexivity. Qed.

(** Ties: the points [1] and [5] both have value 4; the first one wins. *)
Example scenario_tie :
  fst (toy_minimize Toy.sq3 0 Toy.box 2
         (PList [PList [PNum 1]; PList [PNum 5]]) PNone (SeedInt 0))
  = Ok (mkResult (PList [PNum 1]) (PNum 4) (map PNum [4; 4])
          [PList [PNum 1]; PList [PNum 5]] Toy.box []).
Proof. reflexivity. Qed.

(** No initial points and a budget of 0: the driver indexes the first of no
    sampled points. *)
Example scenario_zero_budget :
  toy_minimize Toy.sq3 0 Toy.box 0 PNone PNone (SeedInt 0)
  = (Err IndexError, [EvRvs 0 0]).
Proof. reflexivity. Qed.

(** Without a seed the run follows the ambient generator. *)
Example scenario_unseeded :
  fst (toy_minimize Toy.sq3 0 Toy.box 3 PNone PNone SeedNone)
  <> fst (toy_minimize Toy.sq3 1 Toy.box 3 PNone PNone SeedNone).
Proof. vm_compute. discriminate. Qed.

(** A number given as [x0] is not rejected by the guard of line 79, and a
    tuple is taken as one point. *)
Example scenario_number_x0 :
  toy_minimize Toy.sq3 0 Toy.box 2 (PNum 5) PNone (SeedInt 0)
  = (Err TypeError, []).
Proof. reflexivity. Qed.

Example scenario_tuple_x0 :
  toy_minimize Toy.sq3 0 Toy.box 2 (PTuple [PNum 5]) PNone (SeedInt 0)
  = (Ok (mkResult (PTuple [PNum 5]) (PNum 4)
           (map PNum [4; 9]) [PTuple [PNum 5]; PList [PNum 0]] Toy.box []),
     [EvCall (PTuple [PNum 5]); EvRvs 1 0; EvCall (PList [PNum 0])]).
Proof. reflexivity. Qed.

(** ** The theorems at concrete inputs *)



(** The same scenario: the objective is invoked 5 times. *)
Lemma dummy_minimize_supplied_calls_witness :
  exists res log,
    toy_minimize Toy.sq3 0 Toy.box 5 Toy.two_points Toy.two_values (SeedInt 0)
    = (Ok res, log) /\
    List.length (called_points log) = Z.to_nat 5.
Proof.
  eexists; eexists. split; [reflexivity|].
  destruct (dummy_minimize_supplied_calls
              Toy.RandomState Toy.Space Toy.rvs Toy.array_other
              Toy.argmin_other Toy.sq3 0 Toy.box 5
              Toy.two_points Toy.two_values (SeedInt 0) _ _ eq_refl)
    as (r & sp & pts & X_left & _ & _ & _ & _ & _ & _ & Hcount).
  - discriminate.
  - discriminate.
  - exact Hcount.
Defined.

(** C2 as stated fails: with 2 supplied values and budget 5 the objective
    is invoked 5 times, not 5 - 2. *)
Lemma supplied_values_calls_counterexample :
  exists res log,
    toy_minimize Toy.sq3 0 Toy.box 5 Toy.two_points Toy.two_values (SeedInt 0)
    = (Ok res, log) /\
    Z.of_nat (List.length (called_points log)) = 5 /\
    Z.of_nat (List.length (called_points log)) <> 5 - 2.
Proof.
  eexists; eexists. split; [reflexivity|].
  split; [reflexivity | discriminate].
Qed.

(** Two initial points evaluated by the driver, budget 5: the best value is
    below every value of the trace. *)
Lemma dummy_minimize_best_witness :
  exists res log best m,
    toy_minimize Toy.sq3 0 Toy.box 5 Toy.two_points PNone (SeedInt 0)
    = (Ok res, log) /\
    res_fun res = PNum m /\
    (forall z, In z [4; 36; 9; 16; 0] -> m <= z) /\
    nth_error (res_x_iters res) best = Some (res_x res).
Proof.
  destruct (proj1 (dummy_minimize_best
                     Toy.RandomState Toy.Space Toy.rvs Toy.array_other
                     Toy.argmin_other Toy.sq3 0 Toy.box 5
                     Toy.two_points PNone (SeedInt 0) _ _ eq_refl)
                  [4; 36; 9; 16; 0] eq_refl)
    as (best & m & Hf & _ & Hmin & _ & Hx).
  eexists; eexists; exists best, m. split; [reflexivity|].
  repeat split; assumption.
Defined.

(** C3 as stated fails when a value is NaN: the objective is evaluated at
    [0], [7] and [3] with values 9, NaN and 0; the run reports NaN and the
    point [7], although the value 0 at the point [3] is in the trace. *)
Lemma best_value_nan_counterexample :
  exists res log,
    toy_minimize (Toy.nan_at 7) 0 Toy.box 3 PNone PNone (SeedInt 0)
    = (Ok res, log) /\
    res_func_vals res = [PNum 9; PNaN; PNum 0] /\
    res_x_iters res = [PList [PNum 0]; PList [PNum 7]; PList [PNum 3]] /\
    res_fun res = PNaN /\
    res_x res = PList [PNum 7].
Proof.
  eexists; eexists. split; [reflexivity|]. repeat split.
Qed.

(** Seed 7 under two different ambient generators. *)
Lemma dummy_minimize_seed_deterministic_witness :
  toy_minimize Toy.sq3 0 Toy.box 5 Toy.two_points PNone (SeedInt 7)
  = toy_minimize Toy.sq3 42 Toy.box 5 Toy.two_points PNone (SeedInt 7) /\
  exists n r,
    samplings (snd (toy_minimize Toy.sq3 0 Toy.box 5 Toy.two_points PNone
                      (SeedInt 7)))
    = [EvRvs n r] /\ Toy.RandomState 7 = Ok r.
Proof.
  destruct (dummy_minimize_seed_deterministic
              Toy.RandomState Toy.Space Toy.rvs Toy.array_other
              Toy.argmin_other Toy.sq3 0 42 Toy.box 5
              Toy.two_points PNone 7) as [Heq Hone].
  split; [exact Heq|].
  destruct (Hone _ _ eq_refl)
    as (r & sp & pts & n & X_left & Hr & _ & _ & _ & Hs & _).
  exists n, r. split; [exact Hs | exact Hr].
Defined.

(** A vector-valued objective and no initial points: the run stops after the
    first sampled point. *)
Lemma dummy_minimize_first_evaluation_checked_witness :
  toy_minimize Toy.vec 0 Toy.box 2 PNone PNone (SeedInt 0)
  = (Err (ValueError func_not_scalar), [EvRvs 2 0; EvCall (PList [PNum 0])]).
Proof.
  apply (dummy_minimize_first_evaluation_checked
           Toy.RandomState Toy.Space Toy.rvs Toy.array_other
           Toy.argmin_other Toy.vec 0 Toy.box 2 PNone PNone (SeedInt 0)
           0 Toy.box [] (PList [PNum 0])
           (PList [PList [PNum 0]; PList [PNum 0]]) [EvRvs 2 0]).
  - reflexivity.
  - reflexivity.
  - reflexivity.
  - right. repeat split.
    exists [PList [PNum 0]; PList [PNum 7]]. split; reflexivity.
  - reflexivity.
  - reflexivity.
Defined.

(** C5 as stated fails when initial values are supplied: the first
    objective evaluation, at the first sampled point, returns a vector, the
    run does not fail with the scalar error and the objective is called
    again. *)
Lemma first_evaluation_unchecked_counterexample :
  called_points
    (snd (toy_minimize Toy.vec 0 Toy.box 2 (PList [PList [PNum 1]])
            (PList [PNum 4]) (SeedInt 0)))
  = [PList [PNum 0]; PList [PNum 7]] /\
  (exists v, Toy.vec (PList [PNum 0]) = Ok v /\ np_isscalar v = false) /\
  fst (toy_minimize Toy.vec 0 Toy.box 2 (PList [PList [PNum 1]])
         (PList [PNum 4]) (SeedInt 0))
  <> Err (ValueError func_not_scalar).
Proof.
  split; [reflexivity|]. split.
  - eexists. split; reflexivity.
  - vm_compute. discriminate.
Qed.

(** Two initial points with one value, with a non-scalar value, and with a
    value that is neither an iterable nor a number. *)
Lemma dummy_minimize_initial_values_checked_witness :
  toy_minimize Toy.sq3 0 Toy.box 5 Toy.two_points (PNum 4) (SeedInt 0)
  = (Err (ValueError length_mismatch), []) /\
  toy_minimize Toy.sq3 0 Toy.box 5 Toy.two_points
    (PList [PNum 4; PList [PNum 36]]) (SeedInt 0)
  = (Err (ValueError y0_not_scalars), []) /\
  toy_minimize Toy.sq3 0 Toy.box 5 Toy.two_points (PObj 0) (SeedInt 0)
  = (Err (ValueError y0_bad_type), []).
Proof.
  split; [|split].
  - apply (proj1 (dummy_minimize_initial_values_checked
             Toy.RandomState Toy.Space Toy.rvs Toy.array_other
             Toy.argmin_other Toy.sq3 0 Toy.box 5 Toy.two_points (PNum 4)
             (SeedInt 0) 0 Toy.box [PList [PNum 1]; PList [PNum 9]]
             eq_refl eq_refl eq_refl ltac:(discriminate) ltac:(discriminate)))
      with (vals := [PNum 4]); [reflexivity | discriminate].
  - apply (proj1 (proj2 (dummy_minimize_initial_values_checked
             Toy.RandomState Toy.Space Toy.rvs Toy.array_other
             Toy.argmin_other Toy.sq3 0 Toy.box 5 Toy.two_points
             (PList [PNum 4; PList [PNum 36]])
             (SeedInt 0) 0 Toy.box [PList [PNum 1]; PList [PNum 9]]
             eq_refl eq_refl eq_refl ltac:(discriminate) ltac:(discriminate))))
      with (vals := [PNum 4; PList [PNum 36]]) (w := PList [PNum 36]);
      [reflexivity | reflexivity | right; left; reflexivity | reflexivity].
  - apply (proj2 (proj2 (dummy_minimize_initial_values_checked
             Toy.RandomState Toy.Space Toy.rvs Toy.array_other
             Toy.argmin_other Toy.sq3 0 Toy.box 5 Toy.two_points (PObj 0)
             (SeedInt 0) 0 Toy.box [PList [PNum 1]; PList [PNum 9]]
             eq_refl eq_refl eq_refl ltac:(discriminate) ltac:(discriminate))));
      reflexivity.
Defined.

(** Two initial points and budget 1: the sampler is asked for -1 points. *)
Lemma dummy_minimize_negative_budget_witness :
  toy_minimize Toy.sq3 0 Toy.box 1 Toy.two_points PNone (SeedInt 0)
  = (Err (Other "negative dimensions are not allowed"),
     [EvCall (PList [PNum 1]); EvCall (PList [PNum 9]); EvRvs (-1) 0]).
Proof.
  destruct (dummy_minimize_negative_budget
              Toy.RandomState Toy.Space Toy.rvs Toy.array_other
              Toy.argmin_other Toy.sq3 0 Toy.box 1 Toy.two_points
              (SeedInt 0) 0 Toy.box [PList [PNum 1]; PList [PNum 9]]
              [PNum 4; PNum 36] (PNum 4)) as [_ Hrun].
  - reflexivity.
  - reflexivity.
  - reflexivity.
  - simpl. lia.
  - repeat constructor.
  - reflexivity.
  - reflexivity.
  - exact Hrun.
Defined.

(** An empty list of initial points. *)
Lemma dummy_minimize_empty_x0_witness :
  toy_minimize Toy.sq3 0 Toy.box 5 (PList []) PNone (SeedInt 0)
  = (Err IndexError, []).
Proof.
  apply (proj1 (dummy_minimize_empty_x0
                  Toy.RandomState Toy.Space Toy.rvs Toy.array_other
                  Toy.argmin_other Toy.sq3 0 Toy.box 5 PNone (SeedInt 0)
                  0 Toy.box eq_refl eq_refl)).
Defined.

(** Two values without points, budget 3. *)
Lemma dummy_minimize_values_without_points_witness :
  toy_minimize Toy.sq3 0 Toy.box 3 PNone Toy.two_values (SeedInt 0)
  = toy_minimize Toy.sq3 0 Toy.box 3 PNone PNone (SeedInt 0) /\
  List.length
    (called_points
       (snd (toy_minimize Toy.sq3 0 Toy.box 3 PNone Toy.two_values
               (SeedInt 0))))
  = Z.to_nat 3.
Proof.
  destruct (dummy_minimize_values_without_points
              Toy.RandomState Toy.Space Toy.rvs Toy.array_other
              Toy.argmin_other Toy.sq3 0 Toy.box 3 Toy.two_values (SeedInt 0))
    as [Heq Hshape].
  split; [exact Heq|].
  destruct (Hshape _ _ eq_refl)
    as (r & sp & X_left & ys & _ & _ & _ & _ & _ & _ & _ & _ & Hcount).
  apply Hcount. lia.
Defined.

(** ** Further properties at concrete inputs *)

Lemma sq3_numeric (x v : pyval) :
  Toy.sq3 x = Ok v -> is_plain_number v = true.
Proof.
  destruct x as [|z|s|l|l|n| |z]; try discriminate;
    (destruct l as [|e l]; [discriminate|]);
    destruct e; try discriminate; intros H; inversion H; reflexivity.
Qed.

(** Budget 5, two initial points, an objective that raises at the second
    sampled point: 4 calls were made. *)
Lemma dummy_minimize_budget_respected_witness :
  Z.of_nat
    (List.length
       (called_points
          (snd (toy_minimize (Toy.brittle 7) 0 Toy.box 5 Toy.two_points PNone
                  (SeedInt 0))))) <= 5.
Proof.
  apply (dummy_minimize_budget_respected
           Toy.RandomState Toy.Space Toy.rvs Toy.array_other
           Toy.argmin_other (Toy.brittle 7) 0 Toy.box 5 Toy.two_points PNone
           (SeedInt 0)).
  - lia.
  - intros pts _ H. vm_compute in H. injection H as <-. simpl. lia.
Defined.

(** Budget 5 and two initial points: 2 + 3 calls, initial points first. *)
Lemma dummy_minimize_computed_calls_witness :
  exists res log,
    toy_minimize Toy.sq3 0 Toy.box 5 Toy.two_points PNone (SeedInt 0)
    = (Ok res, log) /\
    called_points log = map (fun z => PList [PNum z]) [1; 9; 0; 7; 3] /\
    List.length (called_points log) = Z.to_nat 5.
Proof.
  eexists; eexists. split; [reflexivity|]. split; [reflexivity|].
  destruct (dummy_minimize_computed_calls
              Toy.RandomState Toy.Space Toy.rvs Toy.array_other
              Toy.argmin_other Toy.sq3 0 Toy.box 5 Toy.two_points
              (SeedInt 0) _ _ eq_refl)
    as (r & sp & pts & X_left & _ & _ & Hx & _ & _ & _ & Hcount).
  - discriminate.
  - apply Hcount. vm_compute in Hx. injection Hx as <-. simpl. lia.
Defined.

(** The best point of the same run is an evaluated point and its value is
    the objective's. *)
Lemma dummy_minimize_reports_evaluated_minimum_witness :
  exists res log m,
    toy_minimize Toy.sq3 0 Toy.box 5 Toy.two_points PNone (SeedInt 0)
    = (Ok res, log) /\
    res_fun res = PNum m /\
    Toy.sq3 (res_x res) = Ok (PNum m).
Proof.
  destruct (dummy_minimize_reports_evaluated_minimum
              Toy.RandomState Toy.Space Toy.rvs Toy.array_other
              Toy.argmin_other Toy.sq3 0 Toy.box 5 Toy.two_points PNone
              (SeedInt 0) _ _ eq_refl (or_intror eq_refl) sq3_numeric)
    as (m & Hfun & _ & Hval & _).
  eexists; eexists; exists m. split; [reflexivity|]. split; assumption.
Defined.

(** The result of the same run. *)
Lemma dummy_minimize_result_shape_witness :
  exists res log,
    toy_minimize Toy.sq3 0 Toy.box 5 Toy.two_points PNone (SeedInt 0)
    = (Ok res, log) /\
    res_models res = [] /\ res_func_vals res <> [].
Proof.
  destruct (dummy_minimize_result_shape
              Toy.RandomState Toy.Space Toy.rvs Toy.array_other
              Toy.argmin_other Toy.sq3 0 Toy.box 5 Toy.two_points PNone
              (SeedInt 0) _ _ eq_refl)
    as (pts & X_left & best & _ & Hm & _ & _ & _ & _ & _ & Hv).
  eexists; eexists. split; [reflexivity|]. split; assumption.
Defined.

(** The objective raises at the second initial point. *)
Lemma dummy_minimize_initial_raises_witness :
  toy_minimize (Toy.brittle 9) 0 Toy.box 5 Toy.two_points PNone (SeedInt 0)
  = (Err (Other "objective failed"),
     [EvCall (PList [PNum 1]); EvCall (PList [PNum 9])]).
Proof.
  apply (dummy_minimize_initial_raises
           Toy.RandomState Toy.Space Toy.rvs Toy.array_other
           Toy.argmin_other (Toy.brittle 9) 0 Toy.box 5 Toy.two_points
           (SeedInt 0) 0 Toy.box [PList [PNum 1]] [PNum 4] []
           (PList [PNum 9])).
  - reflexivity.
  - reflexivity.
  - reflexivity.
  - repeat constructor.
  - intros v H. injection H as <-. reflexivity.
  - reflexivity.
Defined.

(** The objective raises at the second sampled point. *)
Lemma dummy_minimize_fresh_raises_witness :
  toy_minimize (Toy.brittle 7) 0 Toy.box 5 Toy.two_points PNone (SeedInt 0)
  = (Err (Other "objective failed"),
     [EvCall (PList [PNum 1]); EvCall (PList [PNum 9]); EvRvs 3 0;
      EvCall (PList [PNum 0]); EvCall (PList [PNum 7])]).
Proof.
  apply (dummy_minimize_fresh_raises
           Toy.RandomState Toy.Space Toy.rvs Toy.array_other
           Toy.argmin_other (Toy.brittle 7) 0 Toy.box 5 Toy.two_points PNone
           (SeedInt 0) 0 Toy.box
           [PList [PNum 1]; PList [PNum 9]] [PNum 4; PNum 36]
           [PList [PNum 0]; PList [PNum 7]; PList [PNum 3]]
           [PList [PNum 0]] [PNum 9] [PList [PNum 3]] 3
           [EvCall (PList [PNum 1]); EvCall (PList [PNum 9])]
           (PList [PNum 7])).
  - reflexivity.
  - reflexivity.
  - reflexivity.
  - reflexivity.
  - reflexivity.
  - reflexivity.
  - repeat constructor.
  - discriminate.
  - reflexivity.
Defined.

(** No initial points and budget 0: the sampler returns no point. *)
Lemma dummy_minimize_short_sample_witness :
  toy_minimize Toy.sq3 0 Toy.box 0 PNone PNone (SeedInt 0)
  = (Err IndexError, [EvRvs 0 0]).
Proof.
  apply (dummy_minimize_short_sample
           Toy.RandomState Toy.Space Toy.rvs Toy.array_other
           Toy.argmin_other Toy.sq3 0 Toy.box 0 PNone PNone (SeedInt 0)
           0 Toy.box [] [] [] [] 0 []).
  - reflexivity.
  - reflexivity.
  - reflexivity.
  - reflexivity.
  - reflexivity.
  - unfold fresh_count. simpl. lia.
  - constructor.
  - intros _ v H. discriminate.
Defined.

(** A number at the first initial point and vectors afterwards: every point
    is evaluated and the vectors reach the reduction. *)
Lemma dummy_minimize_later_results_unchecked_witness :
  toy_minimize Toy.mixed 0 Toy.box 3 Toy.two_points PNone (SeedInt 0)
  = (Err TypeError,
     [EvCall (PList [PNum 1]); EvCall (PList [PNum 9]); EvRvs 1 0;
      EvCall (PList [PNum 0])]).
Proof.
  apply (dummy_minimize_later_results_unchecked
           Toy.RandomState Toy.Space Toy.rvs Toy.array_other
           Toy.argmin_other Toy.mixed 0 Toy.box 3 Toy.two_points
           (SeedInt 0) 0 Toy.box
           [PList [PNum 1]; PList [PNum 9]]
           [PNum 4; PList [PList [PNum 9]]]
           [PList [PNum 0]] [PList [PList [PNum 0]]] (PNum 4)).
  - reflexivity.
  - reflexivity.
  - reflexivity.
  - repeat constructor.
  - reflexivity.
  - reflexivity.
  - reflexivity.
  - reflexivity.
  - repeat constructor.
Defined.

(** Two initial points and the string of two characters as their values. *)
Lemma dummy_minimize_string_values_witness :
  exists log1,
    snd (toy_minimize Toy.sq3 0 Toy.box 2 Toy.two_points (PStr "ab")
           (SeedInt 0))
    = EvRvs 2 0 :: log1.
Proof.
  apply (proj2 (dummy_minimize_string_values
                  Toy.RandomState Toy.Space Toy.rvs Toy.array_other
                  Toy.argmin_other Toy.sq3 0 Toy.box 2 Toy.two_points "ab"
                  (SeedInt 0) 0 Toy.box [PList [PNum 1]; PList [PNum 9]]
                  eq_refl eq_refl eq_refl ltac:(discriminate) eq_refl)).
Defined.

(** The flat point [[5]] and the same point wrapped. *)
Lemma dummy_minimize_flat_point_witness :
  toy_minimize Toy.sq3 0 Toy.box 3 (PList [PNum 5]) PNone (SeedInt 0)
  = toy_minimize Toy.sq3 0 Toy.box 3 (PList [PList [PNum 5]]) PNone
      (SeedInt 0).
Proof.
  apply (dummy_minimize_flat_point
           Toy.RandomState Toy.Space Toy.rvs Toy.array_other
           Toy.argmin_other Toy.sq3 0 Toy.box 3 (PNum 5) [] PNone (SeedInt 0)).
  reflexivity.
Defined.
